(** * MangaPark downloader: a shallow embedding of [mangapark_dl.py]

    The class [MangaParkDownloader] drives a browser session, scrapes the
    image URLs of a chapter page and streams every image to a numbered
    file.  The methods are embedded as computations in a small monad that
    threads the mutable state (the [self.driver] field and the file
    system), carries Python exceptions, and records the externally visible
    actions (requests, sleeps, log records, driver calls) in order.

    Everything the program does not decide itself (what Chrome, the page,
    the HTTP servers and the operating system answer) is a parameter: the
    record [Env] and the behaviour carried by a [Driver] handle. *)

From Stdlib Require Import ZArith List String Ascii Bool Lia.
From Stdlib Require Import Decimal DecimalString DecimalNat.
From stdpp Require Import gmap strings list fin_maps.

Local Open Scope string_scope.
Local Open Scope Z_scope.

(** ** Python values *)

(** The exceptions the code can meet.  All of them derive from
    [Exception]; [TimeoutException] is the one the scraper tells apart. *)
Inductive exn : Type :=
| TimeoutException
| WebDriverException
| RequestException
| HTTPError
| OSError
| AttributeError.

Inductive outcome (A : Type) : Type :=
| Normal (a : A)
| Raised (e : exn).
Arguments Normal {A} a.
Arguments Raised {A} e.

Abbreviation bytes := (list Byte.byte).

(** Truth value of a [str]-or-[None]: [None] and the empty string are
    falsy. *)
Definition truthy (v : option string) : bool :=
  match v with
  | None => false
  | Some s => negb (String.eqb s "")
  end.

(** [sub in s] on strings. *)
Fixpoint contains (sub s : string) : bool :=
  if String.prefix sub s then true
  else match s with
       | EmptyString => false
       | String _ s' => contains sub s'
       end.

(** [range(n)] for an [int] [n]: empty when [n <= 0]. *)
Definition py_range (n : Z) : list Z :=
  map Z.of_nat (seq 0 (Z.to_nat n)).

(** [str(n)] for an [int]. *)
Definition py_str (n : Z) : string :=
  NilZero.string_of_int (Z.to_int n).

Fixpoint zeros (k : nat) : string :=
  match k with
  | O => ""
  | S k' => String "0" (zeros k')
  end.

(** [f"{i:03d}"] for a non-negative [i]: decimal digits, padded on the
    left with zeros to a minimum width of three. *)
Definition fmt_03d (i : nat) : string :=
  let digits := NilZero.string_of_uint (Nat.to_uint i) in
  zeros (3 - String.length digits) +:+ digits.

(** [os.path.join(a, b)] on POSIX, two arguments. *)
Definition ends_with_slash (a : string) : bool :=
  match String.length a with
  | O => false
  | S n => match String.get n a with
           | Some c => Ascii.eqb c "/"
           | None => false
           end
  end.

Definition path_join (a b : string) : string :=
  if String.prefix "/" b then b
  else if String.eqb a "" || ends_with_slash a then a +:+ b
  else a +:+ "/" +:+ b.

(** ** The browser session *)

(** Handle of a DOM element returned by [find_elements]. *)
Definition Element := nat.

(** A WebDriver handle: what each call on it answers.  A call either
    returns or raises. *)
Record Driver : Type := {
  drv_set_page_load_timeout : Z -> outcome unit;
  drv_implicitly_wait : Z -> outcome unit;
  drv_get : string -> outcome unit;
  (* WebDriverWait(driver, timeout).until(presence_of_element_located(img)) *)
  drv_wait_img : Z -> outcome unit;
  drv_find_elements : string -> outcome (list Element);
  drv_get_attribute : Element -> string -> outcome (option string);
  drv_quit : outcome unit
}.

(** The body of an HTTP response obtained with [stream=True]. *)
Record Response : Type := {
  resp_raise_for_status : outcome unit;
  (* the chunks [iter_content] yields ... *)
  resp_chunks : list bytes;
  (* ... and whether the iteration then ends or raises *)
  resp_stream_error : option exn
}.

(** The collaborators.  [env_get url path k] is the answer to the request
    of attempt [k] of [download_image url path]; [env_open path k] is
    whether [open(path, 'wb')] of that attempt succeeds. *)
Record Env : Type := {
  env_chrome : list string -> outcome Driver;
  env_time : Z;
  env_makedirs : string -> outcome unit;
  env_get : string -> string -> Z -> outcome Response;
  env_open : string -> Z -> outcome unit
}.

(** ** Observable actions *)

Inductive level : Type := INFO | WARNING | ERROR.

(** One constructor per logging call of the module. *)
Inductive message : Type :=
| MsgDriverCreated            (* "Chrome WebDriver created successfully" *)
| MsgDriverCreateFailed       (* "Failed to create Chrome WebDriver" *)
| MsgDriverClosed             (* "WebDriver closed successfully" *)
| MsgDriverCloseError         (* "Error closing WebDriver" *)
| MsgDownloaded (path : string)
| MsgAttemptFailed (n : Z) (url : string)
| MsgDownloadFailed (url : string) (retries : Z)
| MsgLoading (url : string)
| MsgFound (n : nat)
| MsgTimeout (url : string)
| MsgExtractError (url : string)
| MsgStarting (name : string)
| MsgNoImages (name : string)
| MsgCompleted (name : string) (ok total : nat)
| MsgChapterError.

Inductive method : Type :=
| CreateDriver | QuitDriver | DownloadImage | GetChapterImages | DownloadChapter.

Inductive Event : Type :=
| EvCall (m : method)                 (* a method of the class is entered *)
| EvLog (l : level) (m : message)
| EvSleep (secs : Z)                  (* time.sleep *)
| EvTime                              (* time.time() *)
| EvChrome (options : list string)    (* webdriver.Chrome(...) *)
| EvDriverQuit                        (* driver.quit() *)
| EvNavigate (url : string)           (* driver.get *)
| EvFind (selector : string)          (* driver.find_elements *)
| EvMakedirs (path : string)          (* os.makedirs *)
| EvRequest (url : string)            (* requests.get *)
| EvOpen (path : string)              (* open(path, 'wb') *)
| EvWrite (path : string) (chunk : bytes).

(** ** State *)

(** The fields of a [MangaParkDownloader] instance. *)
Record Downloader : Type := {
  download_path : string;
  headless : bool;
  timeout : Z;
  driver : option Driver
}.

Record State : Type := {
  self : Downloader;
  files : gmap string bytes;     (* regular files and their content *)
  dirs : gset string             (* the paths os.makedirs has returned for *)
}.

Definition set_driver (d : option Driver) (s : State) : State :=
  {| self := {| download_path := download_path (self s);
                headless := headless (self s);
                timeout := timeout (self s);
                driver := d |};
     files := files s; dirs := dirs s |}.

Definition set_files (f : gmap string bytes) (s : State) : State :=
  {| self := self s; files := f; dirs := dirs s |}.

Definition add_dir (p : string) (s : State) : State :=
  {| self := self s; files := files s; dirs := {[p]} ∪ dirs s |}.

(** ** The monad: state, exceptions, and a log of actions *)

Record Res (A : Type) : Type := mkRes {
  out : outcome A;
  st : State;
  evs : list Event
}.
Arguments mkRes {A} out st evs.
Arguments out {A} r.
Arguments st {A} r.
Arguments evs {A} r.

Definition M (A : Type) : Type := State -> Res A.

Definition ret {A} (a : A) : M A := fun s => mkRes (Normal a) s [].

Definition raise {A} (e : exn) : M A := fun s => mkRes (Raised e) s [].

Definition bind {A B} (m : M A) (f : A -> M B) : M B := fun s =>
  match m s with
  | mkRes (Normal a) s1 e1 =>
      match f a s1 with
      | mkRes o s2 e2 => mkRes o s2 (e1 ++ e2)
      end
  | mkRes (Raised e) s1 e1 => mkRes (Raised e) s1 e1
  end.

Declare Scope py_scope.
Delimit Scope py_scope with py.
Notation "x <- c1 ;; c2" := (bind c1 (fun x => c2))
  (at level 100, c1 at next level, right associativity) : py_scope.
Notation "c1 ;; c2" := (bind c1 (fun _ => c2))
  (at level 100, right associativity) : py_scope.
Local Open Scope py_scope.

(** [try: m  except Exception as e: h e] *)
Definition try_except {A} (m : M A) (h : exn -> M A) : M A := fun s =>
  match m s with
  | mkRes (Normal a) s1 e1 => mkRes (Normal a) s1 e1
  | mkRes (Raised e) s1 e1 =>
      match h e s1 with
      | mkRes o s2 e2 => mkRes o s2 (e1 ++ e2)
      end
  end.

(** [try: m  finally: fin].  The [finally] block runs whatever [m] did; the
    outcome of [m] stands unless the block itself raises. *)
Definition try_finally {A} (m : M A) (fin : M unit) : M A := fun s =>
  match m s with
  | mkRes o s1 e1 =>
      match fin s1 with
      | mkRes (Normal _) s2 e2 => mkRes o s2 (e1 ++ e2)
      | mkRes (Raised e) s2 e2 => mkRes (Raised e) s2 (e1 ++ e2)
      end
  end.

Definition emit (e : Event) : M unit := fun s => mkRes (Normal tt) s [e].

Definition lift {A} (o : outcome A) : M A := fun s => mkRes o s [].

Definition get_state : M State := fun s => mkRes (Normal s) s [].

Definition modify (f : State -> State) : M unit := fun s => mkRes (Normal tt) (f s) [].

Definition log (l : level) (m : message) : M unit := emit (EvLog l m).

Definition sleep (secs : Z) : M unit := emit (EvSleep secs).

(** ** The methods of [MangaParkDownloader] *)

Section Methods.

Variable env : Env.

(** The arguments [create_driver] passes to Chrome, in order. *)
Definition chrome_options (headless_mode : bool) : list string :=
  ((if headless_mode then ["--headless=new"] else []) ++
  ["--no-sandbox"; "--disable-dev-shm-usage"; "--disable-gpu";
   "--disable-extensions"; "--disable-plugins"; "--disable-images";
   "--window-size=1920,1080";
   "--user-agent=Mozilla/5.0 (X11; Linux x86_64) AppleWebKit/537.36 (KHTML, like Gecko) Chrome/120.0.0.0 Safari/537.36";
   "--memory-pressure-off"; "--max_old_space_size=4096";
   "--disable-background-timer-throttling";
   "--disable-backgrounding-occluded-windows";
   "--disable-renderer-backgrounding"])%list.

(** [create_driver]: start Chrome and configure it; any failure is logged
    and re-raised. *)
Definition create_driver : M Driver :=
  emit (EvCall CreateDriver);;
  s <- get_state;;
  let options := chrome_options (headless (self s)) in
  try_except
    (emit (EvChrome options);;
     d <- lift (env_chrome env options);;
     lift (drv_set_page_load_timeout d (timeout (self s)));;
     lift (drv_implicitly_wait d 10);;
     log INFO MsgDriverCreated;;
     ret d)
    (fun e => log ERROR MsgDriverCreateFailed;; raise e).

(** [quit_driver]: close the session if there is one; the field is cleared
    whatever [driver.quit()] does. *)
Definition quit_driver : M unit :=
  emit (EvCall QuitDriver);;
  s <- get_state;;
  match driver (self s) with
  | Some d =>
      try_finally
        (try_except
           (emit EvDriverQuit;;
            lift (drv_quit d);;
            log INFO MsgDriverClosed)
           (fun e => log WARNING MsgDriverCloseError))
        (modify (set_driver None))
  | None => ret tt
  end.

(** [with open(save_path, 'wb') as f: for chunk in ...: f.write(chunk)] *)
Definition f_write (path : string) (chunk : bytes) : M unit :=
  emit (EvWrite path chunk);;
  modify (fun s => set_files (<[path := (default [] (files s !! path) ++ chunk)%list]> (files s)) s).

Fixpoint write_chunks (path : string) (chunks : list bytes) : M unit :=
  match chunks with
  | [] => ret tt
  | chunk :: rest => f_write path chunk;; write_chunks path rest
  end.

Definition open_wb (path : string) (attempt : Z) : M unit :=
  emit (EvOpen path);;
  lift (env_open env path attempt);;
  modify (fun s => set_files (<[path := []]> (files s)) s).

(** The [try] block of one attempt of [download_image]. *)
Definition attempt_body (image_url save_path : string) (attempt : Z) : M unit :=
  emit (EvRequest image_url);;
  response <- lift (env_get env image_url save_path attempt);;
  lift (resp_raise_for_status response);;
  open_wb save_path attempt;;
  write_chunks save_path (resp_chunks response);;
  match resp_stream_error response with
  | Some e => raise e
  | None => ret tt
  end;;
  log INFO (MsgDownloaded save_path).

(** One iteration of the retry loop: the [try] block and its [except]
    clause.  The result says whether the iteration executed [return True]
    or fell through to the next one. *)
Definition attempt_once (image_url save_path : string) (retries attempt : Z) : M bool :=
  try_except
    (attempt_body image_url save_path attempt;; ret true)
    (fun e =>
       log WARNING (MsgAttemptFailed (attempt + 1) image_url);;
       (if attempt <? retries - 1 then sleep (2 ^ attempt) else ret tt);;
       ret false).

(** The [for attempt in range(retries)] loop and what follows it. *)
Fixpoint download_image_loop (image_url save_path : string) (retries : Z)
    (attempts : list Z) : M bool :=
  match attempts with
  | [] =>
      log ERROR (MsgDownloadFailed image_url retries);;
      ret false
  | attempt :: rest =>
      returned <- attempt_once image_url save_path retries attempt;;
      if returned then ret true
      else download_image_loop image_url save_path retries rest
  end.

Definition download_image (image_url save_path : string) (retries : Z) : M bool :=
  emit (EvCall DownloadImage);;
  download_image_loop image_url save_path retries (py_range retries).

(** The three selectors of [get_chapter_images], in the order tried. *)
Definition sel_primary : string := "img[src*='mangapark']".
Definition sel_reader : string := ".reader-main img".
Definition sel_data_src : string := "img[data-src]".

Definition find_elements (d : Driver) (selector : string) : M (list Element) :=
  emit (EvFind selector);;
  lift (drv_find_elements d selector).

Definition is_empty {A} (l : list A) : bool :=
  match l with [] => true | _ => false end.

(** [img.get_attribute('src') or img.get_attribute('data-src')]: the
    second attribute is read only when the first is missing or empty. *)
Definition element_src (d : Driver) (img : Element) : outcome (option string) :=
  match drv_get_attribute d img "src" with
  | Normal a => if truthy a then Normal a else drv_get_attribute d img "data-src"
  | Raised e => Raised e
  end.

(** The [for img in image_elements] loop. *)
Fixpoint collect_urls (d : Driver) (image_elements : list Element)
    (image_urls : list string) : M (list string) :=
  match image_elements with
  | [] => ret image_urls
  | img :: rest =>
      src <- lift (element_src d img);;
      match src with
      | Some u =>
          if truthy src && contains "mangapark" u
          then collect_urls d rest (image_urls ++ [u])%list
          else collect_urls d rest image_urls
      | None => collect_urls d rest image_urls
      end
  end.

(** The [try] block of [get_chapter_images]. *)
Definition get_chapter_images_body (chapter_url : string) : M (list string) :=
  log INFO (MsgLoading chapter_url);;
  s <- get_state;;
  d <- match driver (self s) with
       | Some d => ret d
       | None => raise AttributeError
       end;;
  emit (EvNavigate chapter_url);;
  lift (drv_get d chapter_url);;
  lift (drv_wait_img d (timeout (self s)));;
  sleep 3;;
  image_elements <- find_elements d sel_primary;;
  image_elements <-
    (if is_empty image_elements then find_elements d sel_reader
     else ret image_elements);;
  image_elements <-
    (if is_empty image_elements then find_elements d sel_data_src
     else ret image_elements);;
  image_urls <- collect_urls d image_elements [];;
  log INFO (MsgFound (length image_urls));;
  ret image_urls.

Definition get_chapter_images (chapter_url : string) : M (list string) :=
  emit (EvCall GetChapterImages);;
  try_except
    (get_chapter_images_body chapter_url)
    (fun e =>
       match e with
       | TimeoutException => log ERROR (MsgTimeout chapter_url);; ret []
       | _ => log ERROR (MsgExtractError chapter_url);; ret []
       end).

Definition page_filename (i : nat) : string :=
  "page_" +:+ fmt_03d i +:+ ".jpg".

(** The [for i, image_url in enumerate(image_urls, 1)] loop. *)
Fixpoint download_pages (chapter_dir : string) (image_urls : list string)
    (i : nat) (success_count : nat) : M nat :=
  match image_urls with
  | [] => ret success_count
  | image_url :: rest =>
      let filename := page_filename i in
      let save_path := path_join chapter_dir filename in
      ok <- download_image image_url save_path 3;;
      sleep 1;;
      download_pages chapter_dir rest (S i)
        (if ok then S success_count else success_count)
  end.

(** [os.makedirs(path, exist_ok=True)].  [dirs] records the path once the
    call has returned; the parents it makes on the way, also when it then
    raises on the leaf, are not recorded. *)
Definition makedirs (path : string) : M unit :=
  emit (EvMakedirs path);;
  lift (env_makedirs env path);;
  modify (add_dir path).

Definition resolve_chapter_name (chapter_name : option string) : M string :=
  match chapter_name with
  | Some n => if truthy chapter_name then ret n
              else (emit EvTime;; ret ("chapter_" +:+ py_str (env_time env)))
  | None => emit EvTime;; ret ("chapter_" +:+ py_str (env_time env))
  end.

(** The [try] block of [download_chapter]. *)
Definition download_chapter_body (chapter_url : string)
    (chapter_name : option string) : M bool :=
  d <- create_driver;;
  modify (set_driver (Some d));;
  chapter_name <- resolve_chapter_name chapter_name;;
  s <- get_state;;
  let chapter_dir := path_join (download_path (self s)) chapter_name in
  makedirs chapter_dir;;
  log INFO (MsgStarting chapter_name);;
  image_urls <- get_chapter_images chapter_url;;
  if is_empty image_urls then
    log ERROR (MsgNoImages chapter_name);;
    ret false
  else
    success_count <- download_pages chapter_dir image_urls 1 0;;
    log INFO (MsgCompleted chapter_name success_count (length image_urls));;
    ret (0 <? success_count)%nat.

Definition download_chapter (chapter_url : string)
    (chapter_name : option string) : M bool :=
  emit (EvCall DownloadChapter);;
  try_finally
    (try_except
       (download_chapter_body chapter_url chapter_name)
       (fun e => log ERROR MsgChapterError;; ret false))
    (quit_driver;; sleep 5).

End Methods.

(** ** Vocabulary of the properties *)

Section Vocabulary.

Variable env : Env.

(** The response whose body attempt [k] streams into [path]: the request
    returned, the status was a success and the file could be opened. *)
Definition attempt_response (url path : string) (k : Z) : option Response :=
  match env_get env url path k with
  | Normal resp =>
      match resp_raise_for_status resp, env_open env path k with
      | Normal _, Normal _ => Some resp
      | _, _ => None
      end
  | Raised _ => None
  end.

(** Attempt [k] goes through: it also reads the body to its end. *)
Definition attempt_ok (url path : string) (k : Z) : bool :=
  match attempt_response url path k with
  | Some resp => match resp_stream_error resp with None => true | Some _ => false end
  | None => false
  end.

(** Some attempt among [range(retries)] goes through. *)
Definition image_ok (url path : string) (retries : Z) : bool :=
  existsb (attempt_ok url path) (py_range retries).

(** The response whose body is in the file once the attempts listed have
    run, starting from [cur]: the retry loop stops at the first attempt
    that goes through, and every attempt that opens the file replaces what
    was there. *)
Fixpoint last_body (url path : string) (attempts : list Z)
    (cur : option Response) : option Response :=
  match attempts with
  | [] => cur
  | k :: rest =>
      if attempt_ok url path k then attempt_response url path k
      else last_body url path rest
             (match attempt_response url path k with
              | Some resp => Some resp
              | None => cur
              end)
  end.

(** Where page [i] of a chapter is saved. *)
Definition page_path (chapter_dir : string) (i : nat) : string :=
  path_join chapter_dir ("page_" +:+ fmt_03d i +:+ ".jpg").

(** How many of the pages, numbered from [i], are downloaded. *)
Fixpoint pages_ok (chapter_dir : string) (urls : list string) (i : nat) : nat :=
  match urls with
  | [] => O
  | u :: rest =>
      ((if image_ok u (page_path chapter_dir i) 3 then 1 else 0)
       + pages_ok chapter_dir rest (S i))%nat
  end.

End Vocabulary.

(** The requests and pauses of a run, in order. *)
Inductive tick : Type :=
| Req
| Pause (secs : Z).

Fixpoint schedule (tr : list Event) : list tick :=
  match tr with
  | [] => []
  | EvRequest _ :: t => Req :: schedule t
  | EvSleep d :: t => Pause d :: schedule t
  | _ :: t => schedule t
  end.

Fixpoint count_requests (sch : list tick) : nat :=
  match sch with
  | [] => O
  | Req :: t => S (count_requests t)
  | Pause _ :: t => count_requests t
  end.

(** Time slept between request number [k - 1] (or the start) and request
    number [k], counting from 0; [None] when there is no such request. *)
Fixpoint delay_before (k : nat) (acc : Z) (sch : list tick) : option Z :=
  match sch with
  | [] => None
  | Pause d :: t => delay_before k (acc + d) t
  | Req :: t =>
      match k with
      | O => Some acc
      | S k' => delay_before k' 0 t
      end
  end.

(** Time slept after the last request. *)
Fixpoint delay_after_last (acc : Z) (sch : list tick) : Z :=
  match sch with
  | [] => acc
  | Pause d :: t => delay_after_last (acc + d) t
  | Req :: t => delay_after_last 0 t
  end.

(** The schedule the retry loop follows when attempts [a], [a + 1], ...,
    [a + n - 1] all fail. *)
Definition backoff_step (retries k : Z) : list tick :=
  Req :: (if k <? retries - 1 then [Pause (2 ^ k)] else []).

Definition backoff_schedule (retries : Z) (attempts : list Z) : list tick :=
  flat_map (backoff_step retries) attempts.

(** The retry rule in the words of the specification: at most [retries]
    attempts; the delay before attempt [k] (counted from 0) is [2 ^ k],
    between attempts only; no delay after the last attempt. *)
Definition spec_backoff (retries : Z) (sch : list tick) : Prop :=
  Z.of_nat (count_requests sch) <= retries /\
  (forall k : nat, (1 <= k < count_requests sch)%nat ->
     delay_before k 0 sch = Some (2 ^ Z.of_nat k)) /\
  delay_after_last 0 sch = 0.

(** The name and the directory [download_chapter] settles on. *)
Definition resolved_name (env : Env) (chapter_name : option string) : string :=
  match chapter_name with
  | Some n => if truthy chapter_name then n
              else "chapter_" +:+ py_str (env_time env)
  | None => "chapter_" +:+ py_str (env_time env)
  end.

Definition chapter_dir_of (env : Env) (s : State) (chapter_name : option string) : string :=
  path_join (download_path (self s)) (resolved_name env chapter_name).

(** Reading a page number back from its formatted form. *)
Definition read_decimal (s : string) : option nat :=
  option_map Nat.of_uint (NilEmpty.uint_of_string s).

(** The steps of a chapter download that concern the session and the
    chapter directory. *)
Inductive milestone : Type :=
| AcquireCalled                 (* create_driver is entered *)
| Acquired                      (* create_driver is about to return a session *)
| ClockRead                     (* time.time() *)
| MkdirCalled (path : string)   (* os.makedirs(path, exist_ok=True) *)
| ReleaseCalled                 (* quit_driver is entered *)
| SessionClosed.                (* driver.quit() *)

Definition milestone_of (e : Event) : option milestone :=
  match e with
  | EvCall CreateDriver => Some AcquireCalled
  | EvLog INFO MsgDriverCreated => Some Acquired
  | EvTime => Some ClockRead
  | EvMakedirs p => Some (MkdirCalled p)
  | EvCall QuitDriver => Some ReleaseCalled
  | EvDriverQuit => Some SessionClosed
  | _ => None
  end.

Definition milestones (tr : list Event) : list milestone := omap milestone_of tr.

Definition count_milestone (m : milestone -> bool) (tr : list Event) : nat :=
  length (List.filter m (milestones tr)).

Definition is_acquired (m : milestone) : bool :=
  match m with Acquired => true | _ => false end.
Definition is_release_called (m : milestone) : bool :=
  match m with ReleaseCalled => true | _ => false end.
Definition is_session_closed (m : milestone) : bool :=
  match m with SessionClosed => true | _ => false end.

(** A computation that passes none of these steps ... *)
Definition silent {A} (m : M A) : Prop :=
  forall s, milestones (evs (m s)) = [].

(** ... and one that leaves the state as it found it. *)
Definition readonly {A} (m : M A) : Prop :=
  forall s, st (m s) = s.

(** ... and one whose result and actions depend on the state through the
    fields of the object only, the state itself being handed back. *)
Definition reads_self {A} (m : M A) : Prop :=
  forall s s', self s = self s' -> m s = mkRes (out (m s')) s (evs (m s')).

(** The order of steps in the words of the specification: the chapter
    directory is created before the session is acquired, so it exists even
    when the acquisition fails. *)
Definition spec_directory_first (env : Env) (url : string) (name : option string)
    (s : State) : Prop :=
  forall e, out (create_driver env s) = Raised e ->
    chapter_dir_of env s name ∈ dirs (st (download_chapter env url name s)).

(** Exhaustion in the words of the specification: when all attempts
    fail the result is [False] and no file is left at the destination
    that was not there before. *)
Definition spec_no_partial_file (env : Env) (url path : string) (retries : Z)
    (s : State) : Prop :=
  (forall k, 0 <= k < retries -> attempt_ok env url path k = false) ->
  files s !! path = None ->
  out (download_image env url path retries s) = Normal false /\
  files (st (download_image env url path retries s)) !! path = None.

(** The files a run has added. *)
Definition new_files (before after : State) : gset string :=
  dom (files after) ∖ dom (files before).

(** Partial success in the words of the specification: when exactly two
    of five images fail for good, the result is [True] and exactly three
    files are produced. *)
Definition spec_two_of_five (env : Env) (url : string) (name : option string)
    (s : State) : Prop :=
  forall d urls,
    out (create_driver env s) = Normal d ->
    env_makedirs env (chapter_dir_of env s name) = Normal tt ->
    out (get_chapter_images url (set_driver (Some d) s)) = Normal urls ->
    length urls = 5%nat ->
    pages_ok env (chapter_dir_of env s name) urls 1 = 3%nat ->
    out (download_chapter env url name s) = Normal true /\
    size (new_files s (st (download_chapter env url name s))) = 3%nat.

(** The selector fallback in the words of the specification: when the
    primary selector matches nothing and the reader-container selector
    matches four elements, the result is the URLs of these four elements,
    in document order. *)
Definition spec_selector_fallback (d : Driver) (chapter_url : string) (s : State) : Prop :=
  driver (self s) = Some d ->
  drv_get d chapter_url = Normal tt ->
  drv_wait_img d (timeout (self s)) = Normal tt ->
  forall (els : list Element) (urls : list string),
    drv_find_elements d sel_primary = Normal [] ->
    drv_find_elements d sel_reader = Normal els ->
    length els = 4%nat ->
    Forall2 (fun img u => element_src d img = Normal (Some u)) els urls ->
    out (get_chapter_images chapter_url s) = Normal urls.

(** ** Concrete situations *)

Module Scenario.

(** A fresh instance: [__init__] has created the download directory and
    there is no session. *)
Definition idle (dl : string) : State :=
  {| self := {| download_path := dl; headless := true; timeout := 30;
                driver := None |};
     files := ∅;
     dirs := {[dl]} |}.

(** No network and no browser: Chrome does not start and every request
    fails. *)
Definition env_offline : Env :=
  {| env_chrome := fun _ => Raised WebDriverException;
     env_time := 1700000000;
     env_makedirs := fun _ => Normal tt;
     env_get := fun _ _ _ => Raised RequestException;
     env_open := fun _ _ => Normal tt |}.

(** A connection that breaks while the body of the first response is read:
    three bytes arrive, then the stream raises; the later requests fail. *)
Definition cut_response : Response :=
  {| resp_raise_for_status := Normal tt;
     resp_chunks := [[Byte.x89; Byte.x50]; [Byte.x4e]];
     resp_stream_error := Some RequestException |}.

Definition env_cut_stream : Env :=
  {| env_chrome := fun _ => Raised WebDriverException;
     env_time := 1700000000;
     env_makedirs := fun _ => Normal tt;
     env_get := fun _ _ k => if k =? 0 then Normal cut_response
                             else Raised RequestException;
     env_open := fun _ _ => Normal tt |}.

(** A session is open on driver [d]. *)
Definition browsing (dl : string) (d : Driver) : State :=
  set_driver (Some d) (idle dl).

(** A chapter page whose four reader images are served from another
    host: no [src] contains the marker, and the reader container holds
    elements 0 to 3. *)
Definition cdn_src (img : Element) : string :=
  "https://cdn.example.com/" +:+ fmt_03d img +:+ ".jpg".

Definition cdn_page : Driver :=
  {| drv_set_page_load_timeout := fun _ => Normal tt;
     drv_implicitly_wait := fun _ => Normal tt;
     drv_get := fun _ => Normal tt;
     drv_wait_img := fun _ => Normal tt;
     drv_find_elements := fun sel =>
       if String.eqb sel sel_reader then Normal [0; 1; 2; 3]%nat else Normal [];
     drv_get_attribute := fun img name =>
       if String.eqb name "src" then Normal (Some (cdn_src img)) else Normal None;
     drv_quit := Normal tt |}.

(** The same page with relative [src] attributes on the site itself: the
    attribute selector sees ["/img/001.jpg"], [get_attribute] returns the
    resolved URL. *)
Definition site_src (img : Element) : string :=
  "https://mangapark.io/img/" +:+ fmt_03d img +:+ ".jpg".

Definition site_page : Driver :=
  {| drv_set_page_load_timeout := fun _ => Normal tt;
     drv_implicitly_wait := fun _ => Normal tt;
     drv_get := fun _ => Normal tt;
     drv_wait_img := fun _ => Normal tt;
     drv_find_elements := fun sel =>
       if String.eqb sel sel_reader then Normal [0; 1; 2; 3]%nat else Normal [];
     drv_get_attribute := fun img name =>
       if String.eqb name "src" then Normal (Some (site_src img)) else Normal None;
     drv_quit := Normal tt |}.

(** A page on which no image ever shows up. *)
Definition blank_page : Driver :=
  {| drv_set_page_load_timeout := fun _ => Normal tt;
     drv_implicitly_wait := fun _ => Normal tt;
     drv_get := fun _ => Normal tt;
     drv_wait_img := fun _ => Raised TimeoutException;
     drv_find_elements := fun _ => Normal [];
     drv_get_attribute := fun _ _ => Normal None;
     drv_quit := Normal tt |}.

(** A chapter of five pages on the site itself. *)
Definition five_pages : Driver :=
  {| drv_set_page_load_timeout := fun _ => Normal tt;
     drv_implicitly_wait := fun _ => Normal tt;
     drv_get := fun _ => Normal tt;
     drv_wait_img := fun _ => Normal tt;
     drv_find_elements := fun sel =>
       if String.eqb sel sel_primary then Normal [0; 1; 2; 3; 4]%nat else Normal [];
     drv_get_attribute := fun img name =>
       if String.eqb name "src" then Normal (Some (site_src img)) else Normal None;
     drv_quit := Normal tt |}.

Definition whole_response : Response :=
  {| resp_raise_for_status := Normal tt;
     resp_chunks := [[Byte.x89; Byte.x50]; [Byte.x4e; Byte.x47]];
     resp_stream_error := None |}.

(** Everything works. *)
Definition env_online : Env :=
  {| env_chrome := fun _ => Normal five_pages;
     env_time := 1700000000;
     env_makedirs := fun _ => Normal tt;
     env_get := fun _ _ _ => Normal whole_response;
     env_open := fun _ _ => Normal tt |}.

(** The images of elements 1 and 3 (pages 2 and 4) never come through:
    each time the connection breaks while the body is read. *)
Definition env_two_cut : Env :=
  {| env_chrome := fun _ => Normal five_pages;
     env_time := 1700000000;
     env_makedirs := fun _ => Normal tt;
     env_get := fun url _ _ =>
       if String.eqb url (site_src 1%nat) || String.eqb url (site_src 3%nat)
       then Normal cut_response else Normal whole_response;
     env_open := fun _ _ => Normal tt |}.

(** The same two images are refused by the server. *)
Definition env_two_refused : Env :=
  {| env_chrome := fun _ => Normal five_pages;
     env_time := 1700000000;
     env_makedirs := fun _ => Normal tt;
     env_get := fun url _ _ =>
       if String.eqb url (site_src 1%nat) || String.eqb url (site_src 3%nat)
       then Raised HTTPError else Normal whole_response;
     env_open := fun _ _ => Normal tt |}.

Definition chapter_url : string := "https://mangapark.io/title/1/c1".

Definition five_urls : list string := map site_src [0; 1; 2; 3; 4]%nat.

End Scenario.

(** ** Further vocabulary *)

(** Time slept in a run, in all. *)
Fixpoint total_pause (sch : list tick) : Z :=
  match sch with
  | [] => 0
  | Req :: t => total_pause t
  | Pause d :: t => d + total_pause t
  end.

(** The selectors a run has asked the browser for, in order. *)
Definition query_of (e : Event) : option string :=
  match e with
  | EvFind sel => Some sel
  | _ => None
  end.

Definition queries (tr : list Event) : list string := omap query_of tr.

(** A computation that makes no HTTP request. *)
Definition requestless {A} (m : M A) : Prop :=
  forall s, count_requests (schedule (evs (m s))) = O.

(** The URLs a chapter download gets to work on: those the scraper returns
    through the session [create_driver] hands out, none without a
    session. *)
Definition scraped (env : Env) (url : string) (s : State) : list string :=
  match out (create_driver env s) with
  | Normal d =>
      match out (get_chapter_images url (set_driver (Some d) s)) with
      | Normal urls => urls
      | Raised _ => []
      end
  | Raised _ => []
  end.

(** A computation none of whose actions shows under the projection
    [proj]. *)
Definition mute {A T} (proj : Event -> option T) (m : M A) : Prop :=
  forall s, omap proj (evs (m s)) = [].

(** The Chrome launches of a run, each with its options. *)
Definition launch_of (e : Event) : option (list string) :=
  match e with
  | EvChrome options => Some options
  | _ => None
  end.

Definition launches (tr : list Event) : list (list string) := omap launch_of tr.

(** ** The constructor and the command line *)

(** [os.path.dirname] on POSIX: everything up to the last slash, without
    trailing slashes unless there is nothing else. *)
Fixpoint drop_while (f : ascii -> bool) (l : list ascii) : list ascii :=
  match l with
  | [] => []
  | c :: l' => if f c then drop_while f l' else l
  end.

Definition is_slash (c : ascii) : bool := Ascii.eqb c "/".

Definition dirname (p : string) : string :=
  let rhead := drop_while (fun c => negb (is_slash c))
                          (List.rev (list_ascii_of_string p)) in
  if forallb is_slash rhead
  then string_of_list_ascii (List.rev rhead)
  else string_of_list_ascii (List.rev (drop_while is_slash rhead)).

(** What the module does around the methods embedded above. *)
Inductive action : Type :=
| Did (e : Event)                  (* an action of one of those methods *)
| LogFileOpened (path : string)    (* logging.FileHandler(path) in basicConfig *)
| LogPathSet (path : string)       (* "Download path set to: ..." *)
| Printed (line : string)          (* print *)
| PrintedError (e : exn).          (* print(f"Unexpected error: {e}") *)

Record Run (A : Type) : Type := mkRun {
  r_out : outcome A;
  r_st : State;
  r_acts : list action
}.
Arguments mkRun {A} r_out r_st r_acts.
Arguments r_out {A} r.
Arguments r_st {A} r.
Arguments r_acts {A} r.

Definition default_download_path : string :=
  "/home/runner/work/slack-images/slack-images/downloads".

(** [download_path or "..."] *)
Definition path_or_default (download_path : option string) : string :=
  match download_path with
  | Some p => if truthy download_path then p else default_download_path
  | None => default_download_path
  end.

Definition log_file_of (download_path : string) : string :=
  path_join (dirname download_path) "mangapark_dl.log".

(** The [logging] module, as the constructor meets it in a process whose
    root logger has no handler yet: what opening the log file answers,
    and the line a record of the constructor makes in it (the format
    begins with the time). *)
Record Logging : Type := {
  open_log : string -> outcome unit;      (* logging.FileHandler(path) *)
  record_line : string -> bytes           (* "<asctime> - INFO - <message>\n" *)
}.

(** [open(path, 'a')], as [logging.FileHandler] does it: the file is
    created empty when it is not there, and kept otherwise. *)
Definition open_append (path : string) (fs : gmap string bytes) : gmap string bytes :=
  match fs !! path with
  | Some _ => fs
  | None => <[path := []]> fs
  end.

Definition append_line (path : string) (line : bytes) (fs : gmap string bytes)
  : gmap string bytes :=
  match fs !! path with
  | Some old => <[path := (old ++ line)%list]> fs
  | None => <[path := line]> fs
  end.

(** [MangaParkDownloader.__init__]: the fields are set, logging is set
    up (which opens the log file next to the download directory, making
    it if it is not there), the download directory is created, and the
    path is logged, on the console and in the log file.  [s] carries the
    file system the constructor finds.  The records the methods log later
    stay [EvLog] actions and are not added to the log file here. *)
Definition init (lg : Logging) (env : Env)
    (download_path : option string) (headless_mode : bool) (timeout_s : Z)
    (s : State) : Run unit :=
  let dp := path_or_default download_path in
  let s1 := {| self := {| download_path := dp; headless := headless_mode;
                          timeout := timeout_s; driver := None |};
               files := files s; dirs := dirs s |} in
  match open_log lg (log_file_of dp) with
  | Raised e => mkRun (Raised e) s1 [LogFileOpened (log_file_of dp)]
  | Normal _ =>
      let r := makedirs env dp (set_files (open_append (log_file_of dp) (files s)) s1) in
      match out r with
      | Raised e =>
          mkRun (Raised e) (st r) (LogFileOpened (log_file_of dp) :: map Did (evs r))
      | Normal _ =>
          mkRun (Normal tt)
                (set_files
                   (append_line (log_file_of dp)
                      (record_line lg ("Download path set to: " +:+ dp))
                      (files (st r)))
                   (st r))
                (LogFileOpened (log_file_of dp) :: map Did (evs r) ++ [LogPathSet dp])
      end
  end.

(** The command line after [argparse]: [--headless] is a [store_true]
    flag whose default is [True], [--timeout] an [int] that defaults to
    30. *)
Record Args : Type := {
  arg_url : string;
  arg_output : option string;
  arg_name : option string;
  arg_headless_given : bool;
  arg_timeout : option Z
}.

Definition store_true (default_value given : bool) : bool :=
  if given then true else default_value.

Definition parsed_headless (a : Args) : bool :=
  store_true true (arg_headless_given a).

Definition parsed_timeout (a : Args) : Z :=
  match arg_timeout a with
  | Some t => t
  | None => 30
  end.

(** [main] up to the end of a run that nobody interrupts: the result is
    the exit status; a fault of the constructor is not caught and comes
    out as it is.  The clause [except KeyboardInterrupt] has no branch
    here: no computation of this development is interrupted, and nothing
    below speaks of the exit status. *)
Definition main (lg : Logging) (env : Env) (a : Args)
    (s : State) : Run Z :=
  let c := init lg env (arg_output a) (parsed_headless a)
                (parsed_timeout a) s in
  match r_out c with
  | Raised e => mkRun (Raised e) (r_st c) (r_acts c)
  | Normal _ =>
      let r := download_chapter env (arg_url a) (arg_name a) (r_st c) in
      match out r with
      | Normal true =>
          mkRun (Normal 0) (st r)
                (r_acts c ++ map Did (evs r)
                 ++ [Printed "Download completed successfully!"])
      | Normal false =>
          mkRun (Normal 1) (st r)
                (r_acts c ++ map Did (evs r) ++ [Printed "Download failed!"])
      | Raised e =>
          mkRun (Normal 1) (st r)
                (r_acts c ++ map Did (evs r) ++ [PrintedError e])
      end
  end.

(** The actions of the methods among those of a run. *)
Definition inner_of (x : action) : option Event :=
  match x with
  | Did e => Some e
  | _ => None
  end.

Definition inner (acts : list action) : list Event := omap inner_of acts.

(** ** Further concrete situations *)

Module Cases.

(** The first body is cut short, the second request gets through. *)
Definition env_second_try : Env :=
  {| env_chrome := fun _ => Normal Scenario.five_pages;
     env_time := 1700000000;
     env_makedirs := fun _ => Normal tt;
     env_get := fun _ _ k => if k =? 0 then Normal Scenario.cut_response
                             else Normal Scenario.whole_response;
     env_open := fun _ _ => Normal tt |}.

(** A lazily loaded page: every image shows a placeholder in [src] and
    keeps its real address in [data-src]. *)
Definition lazy_page : Driver :=
  {| drv_set_page_load_timeout := fun _ => Normal tt;
     drv_implicitly_wait := fun _ => Normal tt;
     drv_get := fun _ => Normal tt;
     drv_wait_img := fun _ => Normal tt;
     drv_find_elements := fun sel =>
       if String.eqb sel sel_data_src then Normal [0; 1; 2]%nat else Normal [];
     drv_get_attribute := fun img name =>
       if String.eqb name "src" then Normal (Some "https://cdn.example.com/loading.gif")
       else Normal (Some (Scenario.site_src img));
     drv_quit := Normal tt |}.

(** The chapter directory cannot be created. *)
Definition env_no_mkdir : Env :=
  {| env_chrome := fun _ => Normal Scenario.five_pages;
     env_time := 1700000000;
     env_makedirs := fun _ => Raised OSError;
     env_get := fun _ _ _ => Normal Scenario.whole_response;
     env_open := fun _ _ => Normal tt |}.

(** A file system with nothing in it, seen by an object not yet
    initialised. *)
Definition blank : State :=
  {| self := {| download_path := ""; headless := false; timeout := 0;
                driver := None |};
     files := ∅;
     dirs := ∅ |}.

(** The log file can be opened; records are stamped with one time. *)
Definition logging_ok : Logging :=
  {| open_log := fun _ => Normal tt;
     record_line := fun m =>
       list_byte_of_string
         ("2023-11-14 22:13:20,000 - INFO - " +:+ m +:+ String "010"%char "") |}.

(** The log file cannot be opened. *)
Definition logging_refused : Logging :=
  {| open_log := fun _ => Raised OSError;
     record_line := record_line logging_ok |}.

Definition args_of (output name : option string) (headless_given : bool) : Args :=
  {| arg_url := Scenario.chapter_url; arg_output := output; arg_name := name;
     arg_headless_given := headless_given; arg_timeout := None |}.

(** Images that carry only [data-src]. *)
Definition deferred_page : Driver :=
  {| drv_set_page_load_timeout := fun _ => Normal tt;
     drv_implicitly_wait := fun _ => Normal tt;
     drv_get := fun _ => Normal tt;
     drv_wait_img := fun _ => Normal tt;
     drv_find_elements := fun sel =>
       if String.eqb sel sel_data_src then Normal [0; 1; 2]%nat else Normal [];
     drv_get_attribute := fun img name =>
       if String.eqb name "src" then Normal None
       else Normal (Some (Scenario.site_src img));
     drv_quit := Normal tt |}.

End Cases.

(** ** Basic facts about the monad *)

Lemma bind_normal {A B} (m : M A) (f : A -> M B) (s : State) (a : A) :
  out (m s) = Normal a ->
  bind m f s = mkRes (out (f a (st (m s)))) (st (f a (st (m s))))
                     (evs (m s) ++ evs (f a (st (m s)))).
Proof.
  intros H. unfold bind. destruct (m s) as [o s1 e1]. cbn in *. subst o.
  destruct (f a s1); reflexivity.
Qed.

Lemma bind_raised {A B} (m : M A) (f : A -> M B) (s : State) (e : exn) :
  out (m s) = Raised e ->
  bind m f s = mkRes (Raised e) (st (m s)) (evs (m s)).
Proof.
  intros H. unfold bind. destruct (m s) as [o s1 e1]. cbn in *. subst o.
  reflexivity.
Qed.

Lemma emit_bind {B} (e : Event) (k : M B) (s : State) :
  bind (emit e) (fun _ => k) s = mkRes (out (k s)) (st (k s)) (e :: evs (k s)).
Proof. unfold bind, emit. destruct (k s); reflexivity. Qed.

Lemma schedule_app (a b : list Event) :
  schedule (a ++ b) = (schedule a ++ schedule b)%list.
Proof.
  induction a as [|e a IH]; [reflexivity|].
  destruct e; simpl; rewrite ?IH; reflexivity.
Qed.

Lemma schedule_writes (path : string) (chunks : list bytes) :
  schedule (map (EvWrite path) chunks) = [].
Proof. induction chunks as [|c cs IH]; [reflexivity | exact IH]. Qed.

Lemma count_requests_app (a b : list tick) :
  count_requests (a ++ b) = (count_requests a + count_requests b)%nat.
Proof.
  induction a as [|t a IH]; [reflexivity|].
  destruct t; simpl; rewrite IH; reflexivity.
Qed.

Lemma set_files_same (s : State) : set_files (files s) s = s.
Proof. destruct s; reflexivity. Qed.

(** ** [download_image] *)

Section DownloadImage.

Variable env : Env.

(** Writing the chunks of a body appends them, in order, to the file. *)
Lemma write_chunks_run (path : string) (chunks : list bytes) (s : State) (c : bytes) :
  files s !! path = Some c ->
  write_chunks path chunks s =
    mkRes (Normal tt)
          (set_files (<[path := (c ++ concat chunks)%list]> (files s)) s)
          (map (EvWrite path) chunks).
Proof.
  revert s c. induction chunks as [|ch rest IH]; intros s c Hc.
  - simpl. unfold ret. rewrite app_nil_r, insert_id by exact Hc.
    rewrite set_files_same. reflexivity.
  - cbn [write_chunks]. unfold bind at 1.
    unfold f_write at 1. cbn. rewrite Hc. cbn.
    rewrite (IH _ (c ++ ch)%list) by (cbn; apply lookup_insert_eq).
    cbn. rewrite insert_insert_eq, <- app_assoc. reflexivity.
Qed.

(** What one iteration of the retry loop does, by cases on what the
    collaborators answer. *)
Lemma attempt_once_spec (url path : string) (retries k : Z) (s : State) :
  let r := attempt_once env url path retries k s in
  out r = Normal (attempt_ok env url path k) /\
  self (st r) = self s /\
  dirs (st r) = dirs s /\
  files (st r) =
    match attempt_response env url path k with
    | Some resp => <[path := concat (resp_chunks resp)]> (files s)
    | None => files s
    end /\
  schedule (evs r) =
    Req :: (if attempt_ok env url path k then []
            else if k <? retries - 1 then [Pause (2 ^ k)] else []).
Proof.
  unfold attempt_once, attempt_ok, attempt_response, attempt_body, open_wb.
  unfold try_except, bind, emit, lift, modify, log, sleep, raise, ret.
  destruct (env_get env url path k) as [resp|e]; cbn.
  2:{ destruct (k <? retries - 1); cbn; repeat split. }
  destruct (resp_raise_for_status resp) as [[]|e]; cbn.
  2:{ destruct (k <? retries - 1); cbn; repeat split. }
  destruct (env_open env path k) as [[]|e]; cbn.
  2:{ destruct (k <? retries - 1); cbn; repeat split. }
  rewrite (write_chunks_run path (resp_chunks resp) _ []) by (cbn; apply lookup_insert_eq).
  cbn. rewrite insert_insert_eq.
  destruct (resp_stream_error resp) as [e|]; cbn.
  - destruct (k <? retries - 1); cbn; rewrite ?schedule_app, ?schedule_writes;
      repeat split.
  - rewrite ?schedule_app, ?schedule_writes; repeat split.
Qed.

Lemma loop_out (url path : string) (retries : Z) (attempts : list Z) (s : State) :
  out (download_image_loop env url path retries attempts s)
    = Normal (existsb (attempt_ok env url path) attempts) /\
  self (st (download_image_loop env url path retries attempts s)) = self s /\
  dirs (st (download_image_loop env url path retries attempts s)) = dirs s.
Proof.
  revert s. induction attempts as [|k rest IH]; intros s.
  - repeat split.
  - destruct (attempt_once_spec url path retries k s) as (Ho & Hs & Hd & _).
    cbn [download_image_loop existsb]. rewrite (bind_normal _ _ _ _ Ho).
    destruct (attempt_ok env url path k); cbn [orb out st].
    + repeat split; assumption.
    + destruct (IH (st (attempt_once env url path retries k s))) as (Ho' & Hs' & Hd').
      rewrite Ho', Hs', Hd'. repeat split; assumption.
Qed.

(** The loop makes at most one request per element of [range(retries)]. *)
Lemma loop_requests_bounded (url path : string) (retries : Z) (attempts : list Z)
    (s : State) :
  (count_requests (schedule (evs (download_image_loop env url path retries attempts s)))
   <= length attempts)%nat.
Proof.
  revert s. induction attempts as [|k rest IH]; intros s.
  - cbn. lia.
  - destruct (attempt_once_spec url path retries k s) as (Ho & _ & _ & _ & He).
    cbn [download_image_loop]. rewrite (bind_normal _ _ _ _ Ho).
    cbn [evs]. rewrite schedule_app, count_requests_app, He.
    destruct (attempt_ok env url path k); cbn [length].
    + cbn. lia.
    + specialize (IH (st (attempt_once env url path retries k s))).
      destruct (k <? retries - 1); cbn [count_requests]; lia.
Qed.

(** When every attempt fails, the loop follows the back-off schedule to
    its end and gives up. *)
Lemma loop_all_fail (url path : string) (retries : Z) (attempts : list Z) (s : State) :
  (forall k, In k attempts -> attempt_ok env url path k = false) ->
  out (download_image_loop env url path retries attempts s) = Normal false /\
  schedule (evs (download_image_loop env url path retries attempts s))
    = backoff_schedule retries attempts.
Proof.
  revert s. induction attempts as [|k rest IH]; intros s Hfail.
  - split; reflexivity.
  - destruct (attempt_once_spec url path retries k s) as (Ho & _ & _ & _ & He).
    cbn [download_image_loop]. rewrite (bind_normal _ _ _ _ Ho).
    rewrite (Hfail k (or_introl eq_refl)) in *.
    destruct (IH (st (attempt_once env url path retries k s))) as (Ho' & He').
    { intros k' Hk'. apply Hfail. right. exact Hk'. }
    cbn [out evs]. rewrite schedule_app, He, Ho', He'. split; [reflexivity|].
    unfold backoff_schedule. cbn [flat_map]. unfold backoff_step at 2.
    destruct (k <? retries - 1); reflexivity.
Qed.

(** What is in the files after the loop: only [path] can have changed, and
    it holds the body of the last attempt that opened it. *)
Lemma loop_files (url path : string) (retries : Z) (attempts : list Z) (s : State)
    (base : gmap string bytes) (cur : option Response) :
  files s = match cur with
            | Some resp => <[path := concat (resp_chunks resp)]> base
            | None => base
            end ->
  files (st (download_image_loop env url path retries attempts s))
    = match last_body env url path attempts cur with
      | Some resp => <[path := concat (resp_chunks resp)]> base
      | None => base
      end.
Proof.
  revert s cur. induction attempts as [|k rest IH]; intros s cur Hs.
  - exact Hs.
  - destruct (attempt_once_spec url path retries k s) as (Ho & _ & _ & Hf & _).
    cbn [download_image_loop last_body]. rewrite (bind_normal _ _ _ _ Ho).
    unfold attempt_ok in *.
    destruct (attempt_response env url path k) as [resp|] eqn:Hresp.
    + assert (Hf' : files (st (attempt_once env url path retries k s))
                    = <[path := concat (resp_chunks resp)]> base).
      { rewrite Hf, Hs. destruct cur; [apply insert_insert_eq | reflexivity]. }
      destruct (resp_stream_error resp); cbn [st].
      * apply (IH _ (Some resp)). exact Hf'.
      * exact Hf'.
    + cbn [st]. apply (IH _ cur). rewrite Hf. exact Hs.
Qed.

Lemma py_range_in (n k : Z) : In k (py_range n) -> 0 <= k < n.
Proof.
  unfold py_range. rewrite in_map_iff. intros (i & <- & Hi).
  apply in_seq in Hi. lia.
Qed.

Lemma py_range_nonpos (n : Z) : n <= 0 -> py_range n = [].
Proof.
  intros Hn. unfold py_range.
  destruct n as [|p|p]; [reflexivity | lia | reflexivity].
Qed.

Lemma download_image_run (url path : string) (retries : Z) (s : State) :
  download_image env url path retries s =
    let r := download_image_loop env url path retries (py_range retries) s in
    mkRes (out r) (st r) (EvCall DownloadImage :: evs r).
Proof. apply emit_bind. Qed.

(** [download_image] always returns a boolean, namely whether some attempt
    went through; it leaves the object and the directories alone. *)
Lemma download_image_out (url path : string) (retries : Z) (s : State) :
  out (download_image env url path retries s) = Normal (image_ok env url path retries) /\
  self (st (download_image env url path retries s)) = self s /\
  dirs (st (download_image env url path retries s)) = dirs s.
Proof. rewrite download_image_run. cbn. apply loop_out. Qed.

Lemma download_image_files (url path : string) (retries : Z) (s : State) :
  files (st (download_image env url path retries s))
    = match last_body env url path (py_range retries) None with
      | Some resp => <[path := concat (resp_chunks resp)]> (files s)
      | None => files s
      end.
Proof. rewrite download_image_run. cbn. apply (loop_files _ _ _ _ _ _ None). reflexivity. Qed.

(** For any answers of the servers, the number of requests stays within
    [range(retries)]. *)
Lemma download_image_requests_bounded (url path : string) (retries : Z) (s : State) :
  (count_requests (schedule (evs (download_image env url path retries s)))
   <= Z.to_nat retries)%nat.
Proof.
  rewrite download_image_run. cbn.
  pose proof (loop_requests_bounded url path retries (py_range retries) s) as H.
  unfold py_range in H at 2. rewrite length_map, length_seq in H. exact H.
Qed.

End DownloadImage.

(** ** The back-off schedule *)

Lemma backoff_count (retries : Z) (attempts : list Z) :
  count_requests (backoff_schedule retries attempts) = length attempts.
Proof.
  induction attempts as [|k rest IH]; [reflexivity|].
  unfold backoff_schedule in *. cbn [flat_map length].
  rewrite count_requests_app, IH. unfold backoff_step.
  destruct (k <? retries - 1); reflexivity.
Qed.

Lemma backoff_step_cons (retries : Z) (a n : nat) :
  retries = Z.of_nat (a + S n) ->
  backoff_schedule retries (map Z.of_nat (seq a (S n)))
    = Req :: ((if Nat.eqb n 0 then [] else [Pause (2 ^ Z.of_nat a)])
              ++ backoff_schedule retries (map Z.of_nat (seq (S a) n)))%list.
Proof.
  intros ->. unfold backoff_schedule. cbn [seq map flat_map]. unfold backoff_step at 1.
  destruct n as [|n].
  - rewrite (proj2 (Z.ltb_ge _ _)) by lia. reflexivity.
  - rewrite (proj2 (Z.ltb_lt _ _)) by lia. reflexivity.
Qed.

(** Between attempt [k - 1] and attempt [k] the loop sleeps [2 ^ (k - 1)]
    seconds; before the first attempt it does not sleep. *)
Lemma backoff_delay_before (retries : Z) (n a k : nat) (acc : Z) :
  retries = Z.of_nat (a + n) ->
  (k < n)%nat ->
  delay_before k acc (backoff_schedule retries (map Z.of_nat (seq a n)))
    = Some (if Nat.eqb k 0 then acc else 2 ^ (Z.of_nat (a + k) - 1)).
Proof.
  revert a k acc. induction n as [|n IH]; intros a k acc Hr Hk; [lia|].
  rewrite (backoff_step_cons retries a n Hr). cbn [delay_before].
  destruct k as [|k]; [reflexivity|].
  destruct n as [|n]; [lia|]. cbn [Nat.eqb app delay_before].
  rewrite IH by lia.
  destruct k as [|k]; cbn [Nat.eqb]; f_equal.
  - replace (Z.of_nat (a + 1) - 1) with (Z.of_nat a) by lia. apply Z.add_0_l.
  - f_equal. lia.
Qed.

(** After the last attempt the loop does not sleep. *)
Lemma backoff_delay_after_last (retries : Z) (n a : nat) (acc : Z) :
  retries = Z.of_nat (a + n) ->
  delay_after_last acc (backoff_schedule retries (map Z.of_nat (seq a n)))
    = if Nat.eqb n 0 then acc else 0.
Proof.
  revert a acc. induction n as [|n IH]; intros a acc Hr; [reflexivity|].
  rewrite (backoff_step_cons retries a n Hr). cbn [delay_after_last Nat.eqb].
  destruct n as [|n]; [reflexivity|]. cbn [Nat.eqb app delay_after_last].
  rewrite IH by lia. reflexivity.
Qed.

(** ** Claims about [download_image] *)

(** C2, as the code has it.  On a URL whose attempts all fail,
    [download_image] returns [False] after exactly [max(retries, 0)]
    requests; it does not sleep before the first request, it sleeps
    [2 ^ (k - 1)] seconds between request [k - 1] and request [k] (that
    is, [2 ^ j] seconds after failed attempt [j]), and it does not sleep
    after the last request. *)
Theorem download_image_backoff (env : Env) (url path : string) (retries : Z) (s : State) :
  (forall k, 0 <= k < retries -> attempt_ok env url path k = false) ->
  out (download_image env url path retries s) = Normal false /\
  count_requests (schedule (evs (download_image env url path retries s)))
    = Z.to_nat retries /\
  (forall k : nat, (k < Z.to_nat retries)%nat ->
     delay_before k 0 (schedule (evs (download_image env url path retries s)))
       = Some (if Nat.eqb k 0 then 0 else 2 ^ (Z.of_nat k - 1))) /\
  delay_after_last 0 (schedule (evs (download_image env url path retries s))) = 0.
Proof.
  intros Hfail. rewrite download_image_run. cbn [out evs schedule].
  destruct (loop_all_fail env url path retries (py_range retries) s) as (Ho & He).
  { intros k Hk. apply Hfail, py_range_in, Hk. }
  rewrite Ho, He. split; [reflexivity|].
  split; [rewrite backoff_count; unfold py_range; now rewrite length_map, length_seq|].
  unfold py_range. destruct (Z.to_nat retries) as [|n] eqn:Hn.
  - split; [intros k Hk; lia | reflexivity].
  - assert (Hr : retries = Z.of_nat (0 + S n)) by lia. split.
    + intros k Hk. rewrite (backoff_delay_before retries (S n) 0 k 0 Hr Hk).
      reflexivity.
    + rewrite (backoff_delay_after_last retries (S n) 0 0 Hr). reflexivity.
Qed.

Lemma download_image_backoff_witness :
  out (download_image Scenario.env_offline "u" "p" 3 (Scenario.idle "/dl")) = Normal false /\
  count_requests (schedule (evs (download_image Scenario.env_offline "u" "p" 3
                                   (Scenario.idle "/dl")))) = Z.to_nat 3 /\
  (forall k : nat, (k < Z.to_nat 3)%nat ->
     delay_before k 0 (schedule (evs (download_image Scenario.env_offline "u" "p" 3
                                        (Scenario.idle "/dl"))))
       = Some (if Nat.eqb k 0 then 0 else 2 ^ (Z.of_nat k - 1))) /\
  delay_after_last 0 (schedule (evs (download_image Scenario.env_offline "u" "p" 3
                                       (Scenario.idle "/dl")))) = 0.
Proof.
  apply (download_image_backoff Scenario.env_offline "u" "p" 3 (Scenario.idle "/dl")).
  intros k Hk. reflexivity.
Defined.

(** C2, as the specification words it, fails: with two attempts the code
    sleeps 1 second before attempt 1, not [2 ^ 1]. *)
Lemma download_image_spec_backoff_fails :
  ~ spec_backoff 2
      (schedule (evs (download_image Scenario.env_offline "u" "p" 2 (Scenario.idle "/dl")))).
Proof.
  intros (_ & H & _). specialize (H 1%nat). vm_compute in H.
  assert (Hk : (1 <= 1 < 2)%nat) by lia.
  specialize (H Hk). discriminate H.
Qed.

(** C10.  With [retries <= 0] the loop body never runs: no request is
    made, the file system is left as it was, the failure is logged and the
    result is [False]. *)
Theorem download_image_no_attempt (env : Env) (url path : string) (retries : Z) (s : State) :
  retries <= 0 ->
  download_image env url path retries s
    = mkRes (Normal false) s
            [EvCall DownloadImage; EvLog ERROR (MsgDownloadFailed url retries)].
Proof.
  intros Hr. rewrite download_image_run, (py_range_nonpos retries Hr). reflexivity.
Qed.

Lemma download_image_no_attempt_witness :
  download_image Scenario.env_cut_stream "u" "p" (-1) (Scenario.idle "/dl")
    = mkRes (Normal false) (Scenario.idle "/dl")
            [EvCall DownloadImage; EvLog ERROR (MsgDownloadFailed "u" (-1))].
Proof.
  apply (download_image_no_attempt Scenario.env_cut_stream "u" "p" (-1) (Scenario.idle "/dl")).
  lia.
Defined.


(** ** Computations that stay away from the session *)

Lemma milestones_app (a b : list Event) :
  milestones (a ++ b) = (milestones a ++ milestones b)%list.
Proof. apply omap_app. Qed.

Lemma milestones_skip (e : Event) (tr : list Event) :
  milestone_of e = None -> milestones (e :: tr) = milestones tr.
Proof. intros He. unfold milestones. cbn. rewrite He. reflexivity. Qed.

Lemma silent_ret {A} (a : A) : silent (ret a).
Proof. intros s. reflexivity. Qed.

Lemma silent_raise {A} (e : exn) : silent (@raise A e).
Proof. intros s. reflexivity. Qed.

Lemma silent_lift {A} (o : outcome A) : silent (lift o).
Proof. intros s. reflexivity. Qed.

Lemma silent_modify (f : State -> State) : silent (modify f).
Proof. intros s. reflexivity. Qed.

Lemma silent_get_state : silent get_state.
Proof. intros s. reflexivity. Qed.

Lemma silent_emit (e : Event) : milestone_of e = None -> silent (emit e).
Proof. intros He s. unfold milestones. cbn. rewrite He. reflexivity. Qed.

Lemma silent_bind {A B} (m : M A) (f : A -> M B) :
  silent m -> (forall a, silent (f a)) -> silent (bind m f).
Proof.
  intros Hm Hf s. specialize (Hm s). unfold bind.
  destruct (m s) as [[a|e] s1 e1]; cbn [evs] in *; [|exact Hm].
  specialize (Hf a s1). destruct (f a s1) as [o s2 e2]; cbn [evs] in *.
  rewrite milestones_app, Hm, Hf. reflexivity.
Qed.

Lemma silent_try_except {A} (m : M A) (h : exn -> M A) :
  silent m -> (forall e, silent (h e)) -> silent (try_except m h).
Proof.
  intros Hm Hh s. specialize (Hm s). unfold try_except.
  destruct (m s) as [[a|e] s1 e1]; cbn [evs] in *; [exact Hm|].
  specialize (Hh e s1). destruct (h e s1) as [o s2 e2]; cbn [evs] in *.
  rewrite milestones_app, Hm, Hh. reflexivity.
Qed.

Lemma readonly_ret {A} (a : A) : readonly (ret a).
Proof. intros s. reflexivity. Qed.

Lemma readonly_raise {A} (e : exn) : readonly (@raise A e).
Proof. intros s. reflexivity. Qed.

Lemma readonly_lift {A} (o : outcome A) : readonly (lift o).
Proof. intros s. reflexivity. Qed.

Lemma readonly_emit (e : Event) : readonly (emit e).
Proof. intros s. reflexivity. Qed.

Lemma readonly_get_state : readonly get_state.
Proof. intros s. reflexivity. Qed.

Lemma readonly_bind {A B} (m : M A) (f : A -> M B) :
  readonly m -> (forall a, readonly (f a)) -> readonly (bind m f).
Proof.
  intros Hm Hf s. specialize (Hm s). unfold bind.
  destruct (m s) as [[a|e] s1 e1]; cbn in *; [|exact Hm].
  specialize (Hf a s1). destruct (f a s1) as [o s2 e2]; cbn in *. congruence.
Qed.

Lemma readonly_try_except {A} (m : M A) (h : exn -> M A) :
  readonly m -> (forall e, readonly (h e)) -> readonly (try_except m h).
Proof.
  intros Hm Hh s. specialize (Hm s). unfold try_except.
  destruct (m s) as [[a|e] s1 e1]; cbn in *; [exact Hm|].
  specialize (Hh e s1). destruct (h e s1) as [o s2 e2]; cbn in *. congruence.
Qed.

Create HintDb session discriminated.

#[local] Hint Resolve silent_ret silent_raise silent_lift silent_modify
  silent_get_state silent_bind silent_try_except
  readonly_ret readonly_raise readonly_lift readonly_emit readonly_get_state
  readonly_bind readonly_try_except : session.

#[local] Hint Extern 1 (silent (emit _)) => (apply silent_emit; reflexivity) : session.
#[local] Hint Extern 1 (silent (log _ _)) => (apply silent_emit; reflexivity) : session.
#[local] Hint Extern 1 (silent (sleep _)) => (apply silent_emit; reflexivity) : session.
#[local] Hint Extern 1 (readonly (log _ _)) => (apply readonly_emit) : session.
#[local] Hint Extern 1 (readonly (sleep _)) => (apply readonly_emit) : session.

(** Case analyses of the code show up as [match] and [if] in the goal. *)
Ltac session_cases :=
  repeat (intros; match goal with
          | |- silent (match ?x with _ => _ end) => destruct x
          | |- readonly (match ?x with _ => _ end) => destruct x
          | |- silent (if ?x then _ else _) => destruct x
          | |- readonly (if ?x then _ else _) => destruct x
          | |- silent (bind _ _) => apply silent_bind
          | |- readonly (bind _ _) => apply readonly_bind
          | |- silent (try_except _ _) => apply silent_try_except
          | |- readonly (try_except _ _) => apply readonly_try_except
          end);
  intros; auto with session.

(** ** [get_chapter_images] *)

Lemma collect_urls_silent (d : Driver) (els : list Element) (acc : list string) :
  silent (collect_urls d els acc).
Proof.
  revert acc. induction els as [|img rest IH]; intros acc; cbn [collect_urls].
  - auto with session.
  - session_cases.
Qed.

Lemma collect_urls_readonly (d : Driver) (els : list Element) (acc : list string) :
  readonly (collect_urls d els acc).
Proof.
  revert acc. induction els as [|img rest IH]; intros acc; cbn [collect_urls].
  - auto with session.
  - session_cases.
Qed.

#[local] Hint Resolve collect_urls_silent collect_urls_readonly : session.

Lemma get_chapter_images_body_silent (url : string) :
  silent (get_chapter_images_body url).
Proof. unfold get_chapter_images_body, find_elements. session_cases. Qed.

Lemma get_chapter_images_body_readonly (url : string) :
  readonly (get_chapter_images_body url).
Proof. unfold get_chapter_images_body, find_elements. session_cases. Qed.

Lemma get_chapter_images_silent (url : string) : silent (get_chapter_images url).
Proof.
  unfold get_chapter_images. pose proof (get_chapter_images_body_silent url).
  session_cases.
Qed.

Lemma get_chapter_images_readonly (url : string) : readonly (get_chapter_images url).
Proof.
  unfold get_chapter_images. pose proof (get_chapter_images_body_readonly url).
  session_cases.
Qed.

(** The scraper never lets a fault through. *)
Lemma get_chapter_images_total (url : string) (s : State) :
  exists urls, out (get_chapter_images url s) = Normal urls.
Proof.
  unfold get_chapter_images. rewrite emit_bind. cbn [out]. unfold try_except.
  destruct (get_chapter_images_body url s) as [[l|e] s1 e1]; [eauto|].
  destruct e; cbn; eauto.
Qed.

(** A load that times out makes the [try] block raise [TimeoutException]. *)
Lemma page_never_ready (url : string) (s : State) (d : Driver) :
  driver (self s) = Some d ->
  drv_get d url = Normal tt ->
  drv_wait_img d (timeout (self s)) = Raised TimeoutException ->
  out (get_chapter_images_body url s) = Raised TimeoutException.
Proof.
  intros Hd Hg Hw.
  unfold get_chapter_images_body, bind, log, emit, get_state, lift, ret, raise.
  rewrite Hd, Hg, Hw. reflexivity.
Qed.

(** C8.  Whatever fault the [try] block of [get_chapter_images] raises
    (the time-out of the wait for an image, a failed navigation, a failed
    query, a missing session), the method returns the empty list, leaves
    the state alone, and its last action is the error record: the one for
    time-outs when the fault is [TimeoutException]. *)
Theorem get_chapter_images_faults_give_empty (url : string) (s : State) (e : exn) :
  out (get_chapter_images_body url s) = Raised e ->
  out (get_chapter_images url s) = Normal [] /\
  st (get_chapter_images url s) = s /\
  exists pre,
    evs (get_chapter_images url s)
      = (pre ++ [EvLog ERROR (match e with
                              | TimeoutException => MsgTimeout url
                              | _ => MsgExtractError url
                              end)])%list.
Proof.
  intros He. split; [|split; [apply get_chapter_images_readonly|]];
    unfold get_chapter_images; rewrite emit_bind; cbn [out evs]; unfold try_except;
    destruct (get_chapter_images_body url s) as [o s1 e1]; cbn in He; subst o.
  - destruct e; reflexivity.
  - exists (EvCall GetChapterImages :: e1). destruct e; reflexivity.
Qed.

Lemma get_chapter_images_faults_give_empty_witness :
  out (get_chapter_images "https://mangapark.io/title/1/c1"
         (Scenario.browsing "/dl" Scenario.blank_page)) = Normal [] /\
  st (get_chapter_images "https://mangapark.io/title/1/c1"
        (Scenario.browsing "/dl" Scenario.blank_page))
    = Scenario.browsing "/dl" Scenario.blank_page /\
  exists pre,
    evs (get_chapter_images "https://mangapark.io/title/1/c1"
           (Scenario.browsing "/dl" Scenario.blank_page))
      = (pre ++ [EvLog ERROR (MsgTimeout "https://mangapark.io/title/1/c1")])%list.
Proof.
  apply (get_chapter_images_faults_give_empty "https://mangapark.io/title/1/c1"
           (Scenario.browsing "/dl" Scenario.blank_page) TimeoutException).
  reflexivity.
Defined.

Lemma truthy_and_contains (u : string) :
  truthy (Some u) && contains "mangapark" u = contains "mangapark" u.
Proof. destruct u; reflexivity. Qed.

(** The loop keeps, in order, the sources that contain the marker. *)
Lemma collect_urls_kept (d : Driver) (els : list Element) (urls acc : list string)
    (s : State) :
  Forall2 (fun img u => element_src d img = Normal (Some u)) els urls ->
  out (collect_urls d els acc s)
    = Normal (acc ++ List.filter (contains "mangapark") urls)%list.
Proof.
  intros H. revert acc. induction H as [|img u els urls Hsrc _ IH]; intros acc.
  - cbn. rewrite app_nil_r. reflexivity.
  - cbn [collect_urls List.filter]. unfold bind at 1, lift at 1. rewrite Hsrc.
    rewrite truthy_and_contains. destruct (contains "mangapark" u).
    + specialize (IH (acc ++ [u])%list). rewrite <- app_assoc in IH. cbn in IH.
      destruct (collect_urls d els (acc ++ [u]) s); exact IH.
    + specialize (IH acc). destruct (collect_urls d els acc s); exact IH.
Qed.

(** The second selector is used when the first finds nothing, and its
    elements go through the same filter as any others. *)
Lemma scrape_reader_fallback (url : string) (s : State) (d : Driver)
    (els : list Element) (urls : list string) :
  driver (self s) = Some d ->
  drv_get d url = Normal tt ->
  drv_wait_img d (timeout (self s)) = Normal tt ->
  drv_find_elements d sel_primary = Normal [] ->
  drv_find_elements d sel_reader = Normal els ->
  els <> [] ->
  Forall2 (fun img u => element_src d img = Normal (Some u)) els urls ->
  out (get_chapter_images url s) = Normal (List.filter (contains "mangapark") urls).
Proof.
  intros Hd Hg Hw Hp Hr Hne Hsrc.
  pose proof (collect_urls_kept d els urls [] s Hsrc) as Hc.
  unfold get_chapter_images, try_except, get_chapter_images_body, find_elements,
    bind, log, sleep, emit, get_state, lift, ret, raise.
  rewrite Hd, Hg, Hw, Hp. cbn [is_empty]. rewrite Hr.
  destruct els as [|img rest]; [congruence|]. cbn [is_empty].
  destruct (collect_urls d (img :: rest) [] s) as [o s1 e1]. cbn in Hc. subst o.
  reflexivity.
Qed.

(** C4, as the code has it.  When the primary selector matches nothing
    and the reader-container selector matches four elements,
    [get_chapter_images] returns, in document order, the URLs of those of
    the four elements whose URL contains ["mangapark"]: all four when each
    of them does. *)
Theorem get_chapter_images_reader_fallback (url : string) (s : State) (d : Driver)
    (els : list Element) (urls : list string) :
  driver (self s) = Some d ->
  drv_get d url = Normal tt ->
  drv_wait_img d (timeout (self s)) = Normal tt ->
  drv_find_elements d sel_primary = Normal [] ->
  drv_find_elements d sel_reader = Normal els ->
  length els = 4%nat ->
  Forall2 (fun img u => element_src d img = Normal (Some u)) els urls ->
  out (get_chapter_images url s) = Normal (List.filter (contains "mangapark") urls) /\
  (forallb (contains "mangapark") urls = true ->
   out (get_chapter_images url s) = Normal urls).
Proof.
  intros Hd Hg Hw Hp Hr Hlen Hsrc.
  assert (Hne : els <> []) by (intros ->; discriminate Hlen).
  pose proof (scrape_reader_fallback url s d els urls Hd Hg Hw Hp Hr Hne Hsrc) as H.
  split; [exact H|]. intros Hall. rewrite H. f_equal.
  clear -Hall. induction urls as [|u urls IH]; [reflexivity|].
  cbn in *. apply andb_prop in Hall as [Hu Hall]. rewrite Hu, (IH Hall). reflexivity.
Qed.

Lemma get_chapter_images_reader_fallback_witness :
  out (get_chapter_images "https://mangapark.io/title/1/c1"
         (Scenario.browsing "/dl" Scenario.site_page))
    = Normal (map Scenario.site_src [0; 1; 2; 3]%nat).
Proof.
  refine (proj2 (get_chapter_images_reader_fallback "https://mangapark.io/title/1/c1"
            (Scenario.browsing "/dl" Scenario.site_page) Scenario.site_page
            [0; 1; 2; 3]%nat (map Scenario.site_src [0; 1; 2; 3]%nat)
            _ _ _ _ _ _ _) _); try reflexivity.
  repeat constructor.
Defined.

(** C4, as the specification words it, fails: four reader images served
    from a host whose name does not contain the marker are all dropped. *)
Lemma reader_fallback_drops_unmarked :
  ~ spec_selector_fallback Scenario.cdn_page "https://mangapark.io/title/1/c1"
      (Scenario.browsing "/dl" Scenario.cdn_page).
Proof.
  intros H.
  specialize (H eq_refl eq_refl eq_refl [0; 1; 2; 3]%nat
                (map Scenario.cdn_src [0; 1; 2; 3]%nat) eq_refl eq_refl eq_refl).
  assert (Hsrc : Forall2 (fun img u => element_src Scenario.cdn_page img = Normal (Some u))
                   [0; 1; 2; 3]%nat (map Scenario.cdn_src [0; 1; 2; 3]%nat))
    by (repeat constructor).
  specialize (H Hsrc). vm_compute in H. discriminate H.
Qed.

(** ** Page file names *)

Lemma string_app_length (a b : string) :
  String.length (a +:+ b) = (String.length a + String.length b)%nat.
Proof.
  induction a as [|c a IH]; [reflexivity|].
  change (S (String.length (a +:+ b)) = S (String.length a + String.length b)).
  rewrite IH. reflexivity.
Qed.

Lemma string_app_inj_r (b x y : string) : x +:+ b = y +:+ b -> x = y.
Proof.
  revert y. induction x as [|c x IH]; intros [|c' y] H.
  - reflexivity.
  - apply (f_equal String.length) in H. rewrite !string_app_length in H.
    cbn [String.length] in H. lia.
  - apply (f_equal String.length) in H. rewrite !string_app_length in H.
    cbn [String.length] in H. lia.
  - change (String c (x +:+ b) = String c' (y +:+ b)) in H.
    injection H as -> H. f_equal. apply IH, H.
Qed.

Lemma uint_of_zeros (k : nat) (s : string) :
  NilEmpty.uint_of_string (zeros k +:+ s)
    = option_map (Nat.iter k D0) (NilEmpty.uint_of_string s).
Proof.
  induction k as [|k IH].
  - change (zeros 0 +:+ s) with s.
    destruct (NilEmpty.uint_of_string s); reflexivity.
  - change (zeros (S k) +:+ s) with (String "0" (zeros k +:+ s)).
    cbn [NilEmpty.uint_of_string]. rewrite IH.
    destruct (NilEmpty.uint_of_string s); reflexivity.
Qed.

Lemma of_uint_leading_zeros (k : nat) (d : uint) :
  Nat.of_uint (Nat.iter k D0 d) = Nat.of_uint d.
Proof.
  induction k as [|k IH]; [reflexivity|].
  rewrite <- IH. apply DecimalNat.Unsigned.of_iff. reflexivity.
Qed.

Lemma read_fmt_03d (i : nat) : read_decimal (fmt_03d i) = Some i.
Proof.
  unfold read_decimal, fmt_03d. rewrite uint_of_zeros.
  assert (H : NilEmpty.uint_of_string (NilZero.string_of_uint (Nat.to_uint i))
              = Some (Nat.to_uint i) \/
              (Nat.to_uint i = Nil /\
               NilEmpty.uint_of_string (NilZero.string_of_uint (Nat.to_uint i))
                 = Some (D0 Nil))).
  { destruct (Nat.to_uint i) eqn:E; try (left; apply (NilEmpty.usu (Nat.to_uint i)) || fail).
    all: try (left; cbn; now rewrite NilEmpty.usu).
    right. split; reflexivity. }
  destruct H as [H | [Hnil H]]; rewrite H; cbn [option_map]; f_equal;
    rewrite of_uint_leading_zeros.
  - apply DecimalNat.Unsigned.of_to.
  - rewrite <- (DecimalNat.Unsigned.of_to i), Hnil. reflexivity.
Qed.

Lemma fmt_03d_inj (i j : nat) : fmt_03d i = fmt_03d j -> i = j.
Proof.
  intros H. apply (f_equal read_decimal) in H. rewrite !read_fmt_03d in H.
  congruence.
Qed.

Lemma string_app_assoc (a b c : string) : (a +:+ b) +:+ c = a +:+ (b +:+ c).
Proof.
  induction a as [|x a IH]; [reflexivity|].
  change (String x ((a +:+ b) +:+ c) = String x (a +:+ (b +:+ c))).
  rewrite IH. reflexivity.
Qed.

Lemma page_name_not_absolute (x : string) : String.prefix "/" ("page_" +:+ x) = false.
Proof. reflexivity. Qed.

(** The chapter directory and a fixed separator come first; the page
    number is the only part of the path that varies. *)
Lemma page_path_split (chapter_dir : string) :
  exists pre, forall i, page_path chapter_dir i
                        = pre +:+ ("page_" +:+ (fmt_03d i +:+ ".jpg")).
Proof.
  destruct (String.eqb chapter_dir "" || ends_with_slash chapter_dir) eqn:E.
  - exists chapter_dir. intros i. unfold page_path, path_join.
    rewrite page_name_not_absolute, E. reflexivity.
  - exists (chapter_dir +:+ "/"). intros i. unfold page_path, path_join.
    rewrite page_name_not_absolute, E. symmetry. apply string_app_assoc.
Qed.

Lemma page_path_inj (chapter_dir : string) (i j : nat) :
  page_path chapter_dir i = page_path chapter_dir j -> i = j.
Proof.
  destruct (page_path_split chapter_dir) as [pre Hpre]. rewrite !Hpre. intros H.
  apply String.app_inj in H. apply (String.app_inj "page_") in H.
  apply string_app_inj_r in H. apply fmt_03d_inj, H.
Qed.

Example fmt_03d_examples :
  fmt_03d 1 = "001" /\ fmt_03d 42 = "042" /\ fmt_03d 999 = "999" /\
  fmt_03d 1000 = "1000".
Proof. repeat split. Qed.

Lemma page_path_first (chapter_dir : string) :
  page_path chapter_dir 1 = path_join chapter_dir "page_001.jpg".
Proof. reflexivity. Qed.

(** ** Session handling *)

Lemma bind_lift_normal {A B} (a : A) (f : A -> M B) (s : State) :
  bind (lift (Normal a)) f s = f a s.
Proof. unfold bind, lift. destruct (f a s); reflexivity. Qed.

Lemma set_driver_none_idle (s : State) :
  driver (self s) = None -> set_driver None s = s.
Proof. destruct s as [[dl h t d] f ds]. cbn. intros ->. reflexivity. Qed.

(** [create_driver] either hands out a session or re-raises; the state is
    not touched (the caller stores the session). *)
Lemma create_driver_spec (env : Env) (s : State) :
  st (create_driver env s) = s /\
  ((exists d, out (create_driver env s) = Normal d /\
              milestones (evs (create_driver env s)) = [AcquireCalled; Acquired]) \/
   (exists e, out (create_driver env s) = Raised e /\
              milestones (evs (create_driver env s)) = [AcquireCalled])).
Proof.
  unfold create_driver, try_except, bind, log, emit, get_state, lift, ret, raise.
  destruct (env_chrome env (chrome_options (headless (self s)))) as [d|e]; cbn.
  2:{ split; [reflexivity|]. right. eauto. }
  destruct (drv_set_page_load_timeout d (timeout (self s))) as [[]|e]; cbn.
  2:{ split; [reflexivity|]. right. eauto. }
  destruct (drv_implicitly_wait d 10) as [[]|e]; cbn.
  2:{ split; [reflexivity|]. right. eauto. }
  split; [reflexivity|]. left. eauto.
Qed.

(** [quit_driver] returns normally in every case, clears the field, and
    calls [driver.quit()] exactly when there was a session. *)
Lemma quit_driver_spec (s : State) :
  out (quit_driver s) = Normal tt /\
  st (quit_driver s) = set_driver None s /\
  milestones (evs (quit_driver s))
    = ReleaseCalled :: match driver (self s) with
                       | Some _ => [SessionClosed]
                       | None => []
                       end.
Proof.
  unfold quit_driver, try_finally, try_except, bind, log, emit, get_state, lift,
    modify, ret.
  destruct (driver (self s)) as [d|] eqn:Hd; cbn.
  - destruct (drv_quit d) as [[]|e]; cbn; repeat split.
  - rewrite (set_driver_none_idle s Hd). repeat split.
Qed.

(** ** The page loop *)

Lemma write_chunks_silent (path : string) (chunks : list bytes) :
  silent (write_chunks path chunks).
Proof.
  induction chunks as [|c rest IH]; cbn [write_chunks]; [auto with session|].
  unfold f_write. session_cases.
Qed.

#[local] Hint Resolve write_chunks_silent : session.

Lemma attempt_once_silent (env : Env) (url path : string) (retries k : Z) :
  silent (attempt_once env url path retries k).
Proof. unfold attempt_once, attempt_body, open_wb. session_cases. Qed.

#[local] Hint Resolve attempt_once_silent : session.

Lemma download_image_silent (env : Env) (url path : string) (retries : Z) :
  silent (download_image env url path retries).
Proof.
  unfold download_image. apply silent_bind; [auto with session|]. intros _.
  induction (py_range retries) as [|k rest IH]; cbn [download_image_loop];
    session_cases.
Qed.

Lemma download_pages_spec (env : Env) (chapter_dir : string) (urls : list string)
    (i c : nat) (s : State) :
  out (download_pages env chapter_dir urls i c s)
    = Normal (c + pages_ok env chapter_dir urls i)%nat /\
  self (st (download_pages env chapter_dir urls i c s)) = self s /\
  dirs (st (download_pages env chapter_dir urls i c s)) = dirs s /\
  milestones (evs (download_pages env chapter_dir urls i c s)) = [].
Proof.
  revert i c s. induction urls as [|u rest IH]; intros i c s.
  - cbn. rewrite Nat.add_0_r. repeat split.
  - cbn [download_pages pages_ok]. fold (page_path chapter_dir i).
    destruct (download_image_out env u (page_path chapter_dir i) 3 s) as (Ho & Hs & Hd).
    pose proof (download_image_silent env u (page_path chapter_dir i) 3 s) as Hm.
    rewrite (bind_normal _ _ _ _ Ho). unfold sleep. rewrite emit_bind. cbn [out st evs].
    destruct (IH (S i)
                (if image_ok env u (page_path chapter_dir i) 3 then S c else c)
                (st (download_image env u (page_path chapter_dir i) 3 s)))
      as (Ho' & Hs' & Hd' & Hm').
    rewrite Ho', Hs', Hd', milestones_app, Hm, milestones_skip, Hm' by reflexivity.
    repeat split; try assumption.
    f_equal. destruct (image_ok env u (page_path chapter_dir i) 3); lia.
Qed.

(** A download touches no file but its destination. *)
Lemma download_image_files_other (env : Env) (url path p : string) (retries : Z)
    (s : State) :
  p <> path ->
  files (st (download_image env url path retries s)) !! p = files s !! p.
Proof.
  intros Hp. rewrite download_image_files.
  destruct (last_body env url path (py_range retries) None); [|reflexivity].
  apply lookup_insert_ne. congruence.
Qed.

(** The page loop leaves every file alone that is not one of its pages. *)
Lemma download_pages_files_other (env : Env) (chapter_dir : string)
    (urls : list string) (i c : nat) (s : State) (p : string) :
  (forall j, (j < length urls)%nat -> p <> page_path chapter_dir (i + j)) ->
  files (st (download_pages env chapter_dir urls i c s)) !! p = files s !! p.
Proof.
  revert i c s. induction urls as [|u rest IH]; intros i c s Hp; [reflexivity|].
  cbn [download_pages]. fold (page_path chapter_dir i).
  destruct (download_image_out env u (page_path chapter_dir i) 3 s) as (Ho & _ & _).
  rewrite (bind_normal _ _ _ _ Ho). unfold sleep. rewrite emit_bind. cbn [st].
  rewrite IH.
  - apply download_image_files_other. specialize (Hp 0%nat).
    rewrite Nat.add_0_r in Hp. apply Hp. cbn. lia.
  - intros j Hj. replace (S i + j)%nat with (i + S j)%nat by lia.
    apply Hp. cbn. lia.
Qed.

(** What the page loop leaves at the path of page [i + j]: the body of the
    last attempt that opened the file, or what was there when no attempt
    got that far. *)
Lemma download_pages_files_page (env : Env) (chapter_dir : string)
    (urls : list string) (i c : nat) (s : State) (j : nat) (u : string) :
  urls !! j = Some u ->
  files (st (download_pages env chapter_dir urls i c s)) !! page_path chapter_dir (i + j)
    = match last_body env u (page_path chapter_dir (i + j)) (py_range 3) None with
      | Some resp => Some (concat (resp_chunks resp))
      | None => files s !! page_path chapter_dir (i + j)
      end.
Proof.
  revert i c s j. induction urls as [|u0 rest IH]; intros i c s j Hj; [discriminate|].
  cbn [download_pages]. fold (page_path chapter_dir i).
  destruct (download_image_out env u0 (page_path chapter_dir i) 3 s) as (Ho & _ & _).
  rewrite (bind_normal _ _ _ _ Ho). unfold sleep. rewrite emit_bind. cbn [st].
  destruct j as [|j].
  - injection Hj as ->. rewrite Nat.add_0_r.
    rewrite download_pages_files_other.
    + rewrite download_image_files.
      destruct (last_body env u (page_path chapter_dir i) (py_range 3) None);
        [apply lookup_insert_eq | reflexivity].
    + intros j' _ Heq. apply page_path_inj in Heq. lia.
  - replace (i + S j)%nat with (S i + j)%nat by lia.
    rewrite (IH (S i) _ _ j Hj).
    destruct (last_body env u (page_path chapter_dir (S i + j)) (py_range 3) None);
      [reflexivity|].
    apply download_image_files_other. intros Heq. apply page_path_inj in Heq. lia.
Qed.

(** ** The scraper reads the state only through [self] *)

(** Such a computation is known once it has been run in one state. *)
Lemma reads_self_run {A} (m : M A) (s s' : State) :
  reads_self m -> self s = self s' ->
  exists o e, m s = mkRes o s e /\ m s' = mkRes o s' e.
Proof.
  intros Hm Hs. exists (out (m s')), (evs (m s')). split.
  - apply Hm, Hs.
  - apply Hm. reflexivity.
Qed.

Lemma reads_self_ret {A} (a : A) : reads_self (ret a).
Proof. intros s s' _. reflexivity. Qed.

Lemma reads_self_raise {A} (e : exn) : reads_self (@raise A e).
Proof. intros s s' _. reflexivity. Qed.

Lemma reads_self_lift {A} (o : outcome A) : reads_self (lift o).
Proof. intros s s' _. reflexivity. Qed.

Lemma reads_self_emit (e : Event) : reads_self (emit e).
Proof. intros s s' _. reflexivity. Qed.

Lemma reads_self_bind {A B} (m : M A) (f : A -> M B) :
  reads_self m -> (forall a, reads_self (f a)) -> reads_self (bind m f).
Proof.
  intros Hm Hf s s' Hs. unfold bind.
  destruct (reads_self_run m s s' Hm Hs) as (o & e1 & -> & ->).
  destruct o as [a|e]; [|reflexivity].
  destruct (reads_self_run (f a) s s' (Hf a) Hs) as (o2 & e2 & -> & ->).
  reflexivity.
Qed.

Lemma reads_self_try_except {A} (m : M A) (h : exn -> M A) :
  reads_self m -> (forall e, reads_self (h e)) -> reads_self (try_except m h).
Proof.
  intros Hm Hh s s' Hs. unfold try_except.
  destruct (reads_self_run m s s' Hm Hs) as (o & e1 & -> & ->).
  destruct o as [a|e]; [reflexivity|].
  destruct (reads_self_run (h e) s s' (Hh e) Hs) as (o2 & e2 & -> & ->).
  reflexivity.
Qed.

(** Reading the state is fine when only [self] is looked at. *)
Lemma reads_self_get_state {B} (k : State -> M B) :
  (forall s0, reads_self (k s0)) ->
  (forall s0 s0', self s0 = self s0' -> k s0 = k s0') ->
  reads_self (bind get_state k).
Proof.
  intros Hk Hself s s' Hs. unfold bind, get_state.
  rewrite (Hself s s' Hs).
  destruct (reads_self_run (k s') s s' (Hk s') Hs) as (o & e & -> & ->).
  reflexivity.
Qed.

#[local] Hint Resolve reads_self_ret reads_self_raise reads_self_lift reads_self_emit
  : session.
#[local] Hint Extern 1 (reads_self (log _ _)) => (apply reads_self_emit) : session.
#[local] Hint Extern 1 (reads_self (sleep _)) => (apply reads_self_emit) : session.

Ltac reads_self_cases :=
  repeat (intros; match goal with
          | |- reads_self (match ?x with _ => _ end) => destruct x
          | |- reads_self (if ?x then _ else _) => destruct x
          | |- reads_self (bind _ _) => apply reads_self_bind
          | |- reads_self (try_except _ _) => apply reads_self_try_except
          end);
  intros; auto with session.

Lemma collect_urls_reads_self (d : Driver) (els : list Element) (acc : list string) :
  reads_self (collect_urls d els acc).
Proof.
  revert acc. induction els as [|img rest IH]; intros acc; cbn [collect_urls];
    reads_self_cases.
Qed.

#[local] Hint Resolve collect_urls_reads_self : session.

Lemma get_chapter_images_reads_self (url : string) :
  reads_self (get_chapter_images url).
Proof.
  unfold get_chapter_images, get_chapter_images_body, find_elements.
  apply reads_self_bind; [auto with session|]. intros _.
  apply reads_self_try_except; [|reads_self_cases].
  apply reads_self_bind; [auto with session|]. intros _.
  apply reads_self_get_state.
  - intros s0. reads_self_cases.
  - intros s0 s0' Hs. rewrite Hs. reflexivity.
Qed.

Lemma get_chapter_images_out_self (url : string) (s s' : State) :
  self s = self s' ->
  out (get_chapter_images url s) = out (get_chapter_images url s').
Proof.
  intros Hs. rewrite (get_chapter_images_reads_self url s s' Hs). reflexivity.
Qed.

(** ** [download_chapter] *)

Lemma resolve_chapter_name_run (env : Env) (name : option string) (s : State) :
  resolve_chapter_name env name s
    = mkRes (Normal (resolved_name env name)) s
            (if truthy name then [] else [EvTime]).
Proof.
  unfold resolve_chapter_name, resolved_name.
  destruct name as [n|]; [|reflexivity].
  destruct (truthy (Some n)); reflexivity.
Qed.

(** The [finally] clause: the outcome of the guarded block stands, the
    session is released, and five seconds pass. *)
Lemma finally_quit {A} (m : M A) (s : State) :
  try_finally m (bind quit_driver (fun _ => sleep 5)) s
    = mkRes (out (m s)) (set_driver None (st (m s)))
            (evs (m s) ++ evs (quit_driver (st (m s))) ++ [EvSleep 5]).
Proof.
  unfold try_finally, bind, sleep, emit.
  destruct (m s) as [o s1 e1]. cbn [out st evs].
  destruct (quit_driver_spec s1) as (Ho & Hs & _).
  destruct (quit_driver s1) as [oq sq eq]. cbn in Ho, Hs. subst oq sq.
  reflexivity.
Qed.

(** The chapter body once a session has been handed out. *)
Lemma body_created (env : Env) (url : string) (name : option string) (s : State)
    (d : Driver) :
  out (create_driver env s) = Normal d ->
  let dir := chapter_dir_of env s name in
  let b := download_chapter_body env url name s in
  self (st b) = self (set_driver (Some d) s) /\
  milestones (evs b)
    = ([AcquireCalled; Acquired] ++ (if truthy name then [] else [ClockRead])
       ++ [MkdirCalled dir])%list /\
  match env_makedirs env dir with
  | Raised e => out b = Raised e /\ files (st b) = files s /\ dirs (st b) = dirs s
  | Normal _ =>
      dirs (st b) = {[dir]} ∪ dirs s /\
      forall urls,
        out (get_chapter_images url (set_driver (Some d) s)) = Normal urls ->
        out b = Normal (negb (is_empty urls) && (0 <? pages_ok env dir urls 1)%nat) /\
        files (st b)
          = files (st (download_pages env dir urls 1 0
                         (add_dir dir (set_driver (Some d) s))))
  end.
Proof.
  intros Hc dir b. subst b.
  destruct (create_driver_spec env s) as (Hst & [(d' & Hd' & Hm) | (e & He & _)]);
    [|congruence].
  unfold download_chapter_body, makedirs, bind, modify, get_state, log, emit, lift, ret.
  destruct (create_driver env s) as [o s0 e0]. cbn [out st evs] in Hc, Hst, Hm. subst o s0.
  cbn beta iota. rewrite resolve_chapter_name_run. cbn beta iota.
  change (path_join (download_path (self (set_driver (Some d) s))) (resolved_name env name))
    with dir.
  assert (Hclock : milestones (if truthy name then [] else [EvTime])
                   = if truthy name then [] else [ClockRead])
    by (destruct (truthy name); reflexivity).
  destruct (env_makedirs env dir) as [[]|e]; cbn beta iota.
  2:{ cbn [out st evs]. rewrite !milestones_app, Hm, Hclock. repeat split. }
  set (s2 := add_dir dir (set_driver (Some d) s)).
  destruct (reads_self_run (get_chapter_images url) s2 (set_driver (Some d) s)
              (get_chapter_images_reads_self url) eq_refl) as (og & eg & Hg2 & Hg1).
  pose proof (get_chapter_images_silent url s2) as Hsil.
  destruct (get_chapter_images_total url s2) as (urls0 & Htot).
  rewrite Hg2 in Hsil, Htot |- *. rewrite Hg1. cbn [out evs] in Hsil, Htot. subst og.
  cbn beta iota.
  destruct urls0 as [|u0 rest0]; cbn [is_empty]; cbn beta iota.
  - cbn [out st evs]. rewrite !milestones_app, Hm, Hclock, Hsil.
    split; [reflexivity|]. split; [reflexivity|]. split; [reflexivity|].
    intros urls [= <-]. split; reflexivity.
  - destruct (download_pages_spec env dir (u0 :: rest0) 1 0 s2) as (Ho & Hs & Hd & Hp).
    destruct (download_pages env dir (u0 :: rest0) 1 0 s2) as [op sp ep] eqn:HP.
    cbn [out st evs] in Ho, Hs, Hd, Hp |- *. subst op. cbn beta iota. cbn [out st evs].
    rewrite !milestones_app, Hm, Hclock, Hsil, Hp, Hs, Hd.
    split; [reflexivity|]. split; [reflexivity|]. split; [reflexivity|].
    intros urls [= <-]. fold s2. rewrite HP. split; reflexivity.
Qed.

Lemma body_not_created (env : Env) (url : string) (name : option string) (s : State)
    (e : exn) :
  out (create_driver env s) = Raised e ->
  download_chapter_body env url name s
    = mkRes (Raised e) s (evs (create_driver env s)).
Proof.
  intros Hc. unfold download_chapter_body. rewrite (bind_raised _ _ _ _ Hc).
  destruct (create_driver_spec env s) as (-> & _). reflexivity.
Qed.

(** The whole method in terms of its [try] block. *)
Lemma download_chapter_run (env : Env) (url : string) (name : option string)
    (s : State) :
  download_chapter env url name s
    = let b := download_chapter_body env url name s in
      mkRes (match out b with Normal v => Normal v | Raised _ => Normal false end)
            (set_driver None (st b))
            (EvCall DownloadChapter ::
             (evs b ++ match out b with
                       | Normal _ => []
                       | Raised _ => [EvLog ERROR MsgChapterError]
                       end)
             ++ evs (quit_driver (st b)) ++ [EvSleep 5]).
Proof.
  unfold download_chapter. rewrite emit_bind, finally_quit. cbn zeta.
  unfold try_except, bind, log, emit, ret.
  destruct (download_chapter_body env url name s) as [[v|e] s1 e1]; cbn [out st evs].
  - rewrite app_nil_r. reflexivity.
  - reflexivity.
Qed.

(** The session and directory steps of a chapter download, in order. *)
Lemma download_chapter_milestones (env : Env) (url : string) (name : option string)
    (s : State) :
  milestones (evs (download_chapter env url name s))
    = match out (create_driver env s) with
      | Normal _ =>
          ([AcquireCalled; Acquired] ++ (if truthy name then [] else [ClockRead])
           ++ [MkdirCalled (chapter_dir_of env s name); ReleaseCalled; SessionClosed])%list
      | Raised _ =>
          AcquireCalled :: ReleaseCalled ::
          match driver (self s) with Some _ => [SessionClosed] | None => [] end
      end.
Proof.
  rewrite download_chapter_run. cbn zeta. cbn [evs].
  rewrite milestones_skip by reflexivity. rewrite !milestones_app.
  destruct (out (create_driver env s)) as [d|e] eqn:Hc.
  - destruct (body_created env url name s d Hc) as (Hself & Hm & _).
    destruct (quit_driver_spec (st (download_chapter_body env url name s)))
      as (_ & _ & Hq).
    rewrite Hm, Hq, Hself. cbn [set_driver self driver].
    destruct (out (download_chapter_body env url name s));
      destruct (truthy name); reflexivity.
  - rewrite (body_not_created env url name s e Hc). cbn [out st evs].
    destruct (create_driver_spec env s) as (_ & [(d' & Hd' & _) | (e' & _ & Hm)]);
      [congruence|].
    destruct (quit_driver_spec s) as (_ & _ & Hq). rewrite Hm, Hq.
    destruct (driver (self s)); reflexivity.
Qed.

Lemma quit_driver_noop (s : State) :
  driver (self s) = None ->
  quit_driver s = mkRes (Normal tt) s [EvCall QuitDriver].
Proof.
  intros Hd. unfold quit_driver, bind, emit, get_state, ret. rewrite Hd. reflexivity.
Qed.

(** C1.  Starting without a session, a call of [download_chapter] enters
    [quit_driver] exactly once; [driver.quit()] is called as many times as
    a session was acquired; no session is left in the object; and the
    call returns a boolean whatever failed.  [quit_driver] itself always
    returns normally and clears the session; a second call in a row, or a
    call without a session, does nothing but be entered. *)
Theorem download_chapter_releases_once (env : Env) (url : string)
    (name : option string) (s : State) :
  driver (self s) = None ->
  count_milestone is_release_called (evs (download_chapter env url name s)) = 1%nat /\
  count_milestone is_session_closed (evs (download_chapter env url name s))
    = count_milestone is_acquired (evs (download_chapter env url name s)) /\
  driver (self (st (download_chapter env url name s))) = None /\
  (exists b, out (download_chapter env url name s) = Normal b) /\
  (forall s0, out (quit_driver s0) = Normal tt /\
              driver (self (st (quit_driver s0))) = None) /\
  (forall s0, quit_driver (st (quit_driver s0))
              = mkRes (Normal tt) (st (quit_driver s0)) [EvCall QuitDriver]) /\
  (forall s0, driver (self s0) = None ->
              quit_driver s0 = mkRes (Normal tt) s0 [EvCall QuitDriver]).
Proof.
  intros Hidle. unfold count_milestone. rewrite download_chapter_milestones, Hidle.
  split; [destruct (out (create_driver env s)); destruct (truthy name); reflexivity|].
  split; [destruct (out (create_driver env s)); destruct (truthy name); reflexivity|].
  rewrite download_chapter_run. cbn zeta. cbn [out st].
  split; [reflexivity|].
  split; [destruct (out (download_chapter_body env url name s)); eauto|].
  split; [|split].
  - intros s0. destruct (quit_driver_spec s0) as (Ho & Hs & _).
    rewrite Ho, Hs. split; reflexivity.
  - intros s0. apply quit_driver_noop.
    destruct (quit_driver_spec s0) as (_ & -> & _). reflexivity.
  - apply quit_driver_noop.
Qed.

Lemma download_chapter_releases_once_witness :
  count_milestone is_release_called
    (evs (download_chapter Scenario.env_online Scenario.chapter_url (Some "ch1")
            (Scenario.idle "/dl"))) = 1%nat /\
  count_milestone is_session_closed
    (evs (download_chapter Scenario.env_online Scenario.chapter_url (Some "ch1")
            (Scenario.idle "/dl")))
    = count_milestone is_acquired
        (evs (download_chapter Scenario.env_online Scenario.chapter_url (Some "ch1")
                (Scenario.idle "/dl"))).
Proof.
  destruct (download_chapter_releases_once Scenario.env_online Scenario.chapter_url
              (Some "ch1") (Scenario.idle "/dl") eq_refl) as (H1 & H2 & _).
  split; [exact H1 | exact H2].
Defined.

(** C9, as the code has it.  [download_chapter] first asks for a session;
    only when it has one does it resolve the chapter name (reading the
    clock if none was supplied) and create the chapter directory.  When the
    acquisition fails the result is [False] and neither directories nor
    files have changed. *)
Theorem download_chapter_session_first (env : Env) (url : string)
    (name : option string) (s : State) :
  milestones (evs (download_chapter env url name s))
    = match out (create_driver env s) with
      | Normal _ =>
          ([AcquireCalled; Acquired] ++ (if truthy name then [] else [ClockRead])
           ++ [MkdirCalled (chapter_dir_of env s name); ReleaseCalled; SessionClosed])%list
      | Raised _ =>
          AcquireCalled :: ReleaseCalled ::
          match driver (self s) with Some _ => [SessionClosed] | None => [] end
      end /\
  (forall e, out (create_driver env s) = Raised e ->
     out (download_chapter env url name s) = Normal false /\
     dirs (st (download_chapter env url name s)) = dirs s /\
     files (st (download_chapter env url name s)) = files s).
Proof.
  split; [apply download_chapter_milestones|].
  intros e Hc. rewrite download_chapter_run. cbn zeta.
  rewrite (body_not_created env url name s e Hc). repeat split.
Qed.

Lemma download_chapter_session_first_witness :
  out (download_chapter Scenario.env_offline Scenario.chapter_url None
         (Scenario.idle "/dl")) = Normal false /\
  dirs (st (download_chapter Scenario.env_offline Scenario.chapter_url None
              (Scenario.idle "/dl"))) = dirs (Scenario.idle "/dl") /\
  files (st (download_chapter Scenario.env_offline Scenario.chapter_url None
               (Scenario.idle "/dl"))) = files (Scenario.idle "/dl").
Proof.
  apply (proj2 (download_chapter_session_first Scenario.env_offline Scenario.chapter_url
                  None (Scenario.idle "/dl")) WebDriverException).
  reflexivity.
Defined.

(** C9, as the specification words it, fails: when Chrome does not start,
    the chapter directory has not been created. *)
Lemma directory_not_created_without_session :
  ~ spec_directory_first Scenario.env_offline Scenario.chapter_url (Some "ch1")
      (Scenario.idle "/dl").
Proof.
  intros H. specialize (H WebDriverException eq_refl).
  assert (Hd : dirs (st (download_chapter Scenario.env_offline Scenario.chapter_url
                           (Some "ch1") (Scenario.idle "/dl")))
               = {["/dl"]}) by reflexivity.
  rewrite Hd in H. apply elem_of_singleton in H. vm_compute in H. discriminate H.
Qed.

(** C7.  When the session is there and the scraper finds no image URL,
    [download_chapter] returns [False] and no file has been created or
    changed. *)
Theorem download_chapter_no_images (env : Env) (url : string) (name : option string)
    (s : State) (d : Driver) :
  out (create_driver env s) = Normal d ->
  out (get_chapter_images url (set_driver (Some d) s)) = Normal [] ->
  out (download_chapter env url name s) = Normal false /\
  files (st (download_chapter env url name s)) = files s.
Proof.
  intros Hc Hg. rewrite download_chapter_run. cbn zeta. cbn [out st].
  destruct (body_created env url name s d Hc) as (_ & _ & Hmk).
  destruct (env_makedirs env (chapter_dir_of env s name)) as [[]|e].
  - destruct Hmk as (_ & Hu). destruct (Hu [] Hg) as (Ho & Hf).
    rewrite Ho. split; [reflexivity|]. cbn [set_driver files]. rewrite Hf. reflexivity.
  - destruct Hmk as (Ho & Hf & _). rewrite Ho. split; [reflexivity|].
    cbn [set_driver files]. exact Hf.
Qed.

Lemma download_chapter_no_images_witness :
  out (download_chapter
         {| env_chrome := fun _ => Normal Scenario.blank_page;
            env_time := 1700000000;
            env_makedirs := fun _ => Normal tt;
            env_get := fun _ _ _ => Normal Scenario.whole_response;
            env_open := fun _ _ => Normal tt |}
         Scenario.chapter_url (Some "ch1") (Scenario.idle "/dl")) = Normal false /\
  files (st (download_chapter
               {| env_chrome := fun _ => Normal Scenario.blank_page;
                  env_time := 1700000000;
                  env_makedirs := fun _ => Normal tt;
                  env_get := fun _ _ _ => Normal Scenario.whole_response;
                  env_open := fun _ _ => Normal tt |}
               Scenario.chapter_url (Some "ch1") (Scenario.idle "/dl")))
    = files (Scenario.idle "/dl").
Proof.
  apply (download_chapter_no_images _ Scenario.chapter_url (Some "ch1")
           (Scenario.idle "/dl") Scenario.blank_page); reflexivity.
Defined.

(** ** Counting the pages *)

Lemma image_ok_first (env : Env) (url path : string) :
  attempt_ok env url path 0 = true ->
  image_ok env url path 3 = true /\
  last_body env url path (py_range 3) None = attempt_response env url path 0.
Proof.
  intros H. unfold image_ok. change (py_range 3) with [0; 1; 2].
  cbn [existsb last_body]. rewrite H. split; reflexivity.
Qed.

Lemma pages_ok_all (env : Env) (chapter_dir : string) (urls : list string) (i : nat) :
  (forall j u, urls !! j = Some u ->
     image_ok env u (page_path chapter_dir (i + j)) 3 = true) ->
  pages_ok env chapter_dir urls i = length urls.
Proof.
  revert i. induction urls as [|u rest IH]; intros i H; [reflexivity|].
  cbn [pages_ok length]. rewrite IH.
  - specialize (H 0%nat u eq_refl). rewrite Nat.add_0_r in H. rewrite H. reflexivity.
  - intros j u' Hj. replace (S i + j)%nat with (i + S j)%nat by lia.
    apply H. exact Hj.
Qed.

(** What a chapter download returns and leaves on disk once it has a
    session, a directory and a non-empty list of URLs. *)
Lemma download_chapter_pages (env : Env) (url : string) (name : option string)
    (s : State) (d : Driver) (urls : list string) :
  out (create_driver env s) = Normal d ->
  env_makedirs env (chapter_dir_of env s name) = Normal tt ->
  out (get_chapter_images url (set_driver (Some d) s)) = Normal urls ->
  urls <> [] ->
  out (download_chapter env url name s)
    = Normal (0 <? pages_ok env (chapter_dir_of env s name) urls 1)%nat /\
  (forall j u, urls !! j = Some u ->
     files (st (download_chapter env url name s))
       !! page_path (chapter_dir_of env s name) (S j)
     = match last_body env u (page_path (chapter_dir_of env s name) (S j))
               (py_range 3) None with
       | Some resp => Some (concat (resp_chunks resp))
       | None => files s !! page_path (chapter_dir_of env s name) (S j)
       end) /\
  (forall p, (forall j, (j < length urls)%nat ->
                p <> page_path (chapter_dir_of env s name) (S j)) ->
     files (st (download_chapter env url name s)) !! p = files s !! p).
Proof.
  intros Hc Hmk Hg Hne. rewrite download_chapter_run. cbn zeta. cbn [out st].
  destruct (body_created env url name s d Hc) as (_ & _ & Hb).
  rewrite Hmk in Hb. destruct Hb as (_ & Hu). destruct (Hu urls Hg) as (Ho & Hf).
  rewrite Ho. cbn [set_driver files]. rewrite Hf.
  destruct urls as [|u0 rest]; [congruence|]. cbn [is_empty negb andb].
  split; [reflexivity|]. split.
  - intros j u Hj.
    rewrite (download_pages_files_page env _ (u0 :: rest) 1 0 _ j u Hj). reflexivity.
  - intros p Hp.
    rewrite (download_pages_files_other env _ (u0 :: rest) 1 0 _ p Hp). reflexivity.
Qed.

(** C6.  With a session, a chapter directory and [N >= 1] URLs whose
    downloads all go through at the first attempt, [download_chapter]
    returns [True]; the URL at position [j] of the list (from 0) is saved
    as page [j + 1], whose file holds the whole body; no other file is
    touched; the [N] paths are pairwise distinct; and the first one is
    [page_001.jpg] in the chapter directory. *)
Theorem download_chapter_all_pages (env : Env) (url : string) (name : option string)
    (s : State) (d : Driver) (urls : list string) :
  out (create_driver env s) = Normal d ->
  env_makedirs env (chapter_dir_of env s name) = Normal tt ->
  out (get_chapter_images url (set_driver (Some d) s)) = Normal urls ->
  urls <> [] ->
  (forall j u, urls !! j = Some u ->
     attempt_ok env u (page_path (chapter_dir_of env s name) (S j)) 0 = true) ->
  out (download_chapter env url name s) = Normal true /\
  (forall j u, urls !! j = Some u ->
     exists resp,
       attempt_response env u (page_path (chapter_dir_of env s name) (S j)) 0
         = Some resp /\
       files (st (download_chapter env url name s))
         !! page_path (chapter_dir_of env s name) (S j)
       = Some (concat (resp_chunks resp))) /\
  (forall p, (forall j, (j < length urls)%nat ->
                p <> page_path (chapter_dir_of env s name) (S j)) ->
     files (st (download_chapter env url name s)) !! p = files s !! p) /\
  NoDup (page_path (chapter_dir_of env s name) <$> seq 1 (length urls)) /\
  page_path (chapter_dir_of env s name) 1
    = path_join (chapter_dir_of env s name) "page_001.jpg".
Proof.
  intros Hc Hmk Hg Hne Hok.
  destruct (download_chapter_pages env url name s d urls Hc Hmk Hg Hne)
    as (Ho & Hpage & Hother).
  split; [|split; [|split; [exact Hother|split]]].
  - rewrite Ho, pages_ok_all.
    + destruct urls; [congruence | reflexivity].
    + intros j u Hj. apply image_ok_first, Hok, Hj.
  - intros j u Hj. rewrite (Hpage j u Hj).
    destruct (image_ok_first env u _ (Hok j u Hj)) as (_ & ->).
    pose proof (Hok j u Hj) as H. unfold attempt_ok in H.
    destruct (attempt_response env u
                (page_path (chapter_dir_of env s name) (S j)) 0) as [resp|];
      [eauto | discriminate].
  - apply NoDup_fmap_2; [|apply NoDup_seq].
    intros i j. apply page_path_inj.
  - reflexivity.
Qed.

Lemma download_chapter_all_pages_witness :
  out (download_chapter Scenario.env_online Scenario.chapter_url (Some "ch1")
         (Scenario.idle "/dl")) = Normal true /\
  NoDup (page_path (chapter_dir_of Scenario.env_online (Scenario.idle "/dl") (Some "ch1"))
           <$> seq 1 (length Scenario.five_urls)).
Proof.
  destruct (download_chapter_all_pages Scenario.env_online Scenario.chapter_url
              (Some "ch1") (Scenario.idle "/dl") Scenario.five_pages Scenario.five_urls)
    as (Ho & _ & _ & Hnd & _).
  - reflexivity.
  - reflexivity.
  - reflexivity.
  - discriminate.
  - intros j u Hj. reflexivity.
  - split; [exact Ho | exact Hnd].
Defined.

(** A browser that starts but cannot be configured is not a session in
    the sense of C1: [create_driver] re-raises, the handle is dropped and
    [quit_driver] finds nothing to close. *)
Remark unconfigured_browser_not_closed :
  let d := {| drv_set_page_load_timeout := fun _ => Raised WebDriverException;
              drv_implicitly_wait := fun _ => Normal tt;
              drv_get := fun _ => Normal tt;
              drv_wait_img := fun _ => Normal tt;
              drv_find_elements := fun _ => Normal [];
              drv_get_attribute := fun _ _ => Normal None;
              drv_quit := Normal tt |} in
  let env := {| env_chrome := fun _ => Normal d;
                env_time := 1700000000;
                env_makedirs := fun _ => Normal tt;
                env_get := fun _ _ _ => Raised RequestException;
                env_open := fun _ _ => Normal tt |} in
  milestones (evs (download_chapter env Scenario.chapter_url None (Scenario.idle "/dl")))
    = [AcquireCalled; ReleaseCalled].
Proof. reflexivity. Qed.

(** ** What is left at the destination *)

Section LastBody.

Variable env : Env.
Variables url path : string.

Lemma attempt_response_none_fails (k : Z) :
  attempt_response env url path k = None -> attempt_ok env url path k = false.
Proof. unfold attempt_ok. intros ->. reflexivity. Qed.

(** Attempts that never open the file leave it as it is. *)
Lemma last_body_never_opened (attempts : list Z) (cur : option Response) :
  (forall k, In k attempts -> attempt_response env url path k = None) ->
  last_body env url path attempts cur = cur.
Proof.
  induction attempts as [|k rest IH]; intros H; [reflexivity|].
  cbn [last_body].
  rewrite (attempt_response_none_fails k (H k (or_introl eq_refl))).
  rewrite (H k (or_introl eq_refl)). apply IH.
  intros k' Hk'. apply H. right. exact Hk'.
Qed.

(** When some attempt goes through, the file holds a complete body. *)
Lemma last_body_ok (attempts : list Z) (cur : option Response) :
  existsb (attempt_ok env url path) attempts = true ->
  exists k resp,
    In k attempts /\
    attempt_response env url path k = Some resp /\
    resp_stream_error resp = None /\
    last_body env url path attempts cur = Some resp.
Proof.
  revert cur. induction attempts as [|k rest IH]; intros cur H; [discriminate|].
  cbn [existsb last_body] in *.
  destruct (attempt_ok env url path k) eqn:Hk.
  - unfold attempt_ok in Hk.
    destruct (attempt_response env url path k) as [resp|] eqn:Hr; [|discriminate].
    exists k, resp. split; [left; reflexivity|]. split; [exact Hr|].
    destruct (resp_stream_error resp); [discriminate|]. split; reflexivity.
  - edestruct IH as (k' & resp & Hin & Hr & He & Hl); [exact H|].
    exists k', resp. split; [right; exact Hin|]. split; [exact Hr|].
    split; [exact He | exact Hl].
Qed.

(** When all attempts fail, the file holds what the last attempt that
    opened it had received. *)
Lemma last_body_last_opened (l1 l2 : list Z) (k0 : Z) (resp : Response)
    (cur : option Response) :
  (forall k, In k (l1 ++ k0 :: l2) -> attempt_ok env url path k = false) ->
  attempt_response env url path k0 = Some resp ->
  (forall k, In k l2 -> attempt_response env url path k = None) ->
  last_body env url path (l1 ++ k0 :: l2) cur = Some resp.
Proof.
  revert cur. induction l1 as [|a l1 IH]; intros cur Hfail Hr Hl2.
  - cbn [app last_body]. rewrite (Hfail k0 (or_introl eq_refl)), Hr.
    apply last_body_never_opened, Hl2.
  - cbn [app last_body]. rewrite (Hfail a (or_introl eq_refl)).
    apply IH; [|exact Hr | exact Hl2].
    intros k Hk. apply Hfail. right. exact Hk.
Qed.

End LastBody.

Lemma py_range_split (n k0 : Z) :
  0 <= k0 < n ->
  exists l2, py_range n = (py_range k0 ++ k0 :: l2)%list /\
             forall k, In k l2 -> k0 < k < n.
Proof.
  intros Hk. unfold py_range.
  replace (Z.to_nat n) with (Z.to_nat k0 + S (Z.to_nat n - S (Z.to_nat k0)))%nat by lia.
  rewrite seq_app, map_app. cbn [seq map Nat.add].
  exists (map Z.of_nat (seq (S (Z.to_nat k0)) (Z.to_nat n - S (Z.to_nat k0)))).
  split.
  - rewrite Z2Nat.id by lia. reflexivity.
  - intros k Hin. apply in_map_iff in Hin as (i & <- & Hi). apply in_seq in Hi. lia.
Qed.

(** What exhaustion leaves behind.  When all attempts fail,
    [download_image] returns [False] and deletes nothing.  If no attempt got as far as
    opening the destination, the files are what they were, so no file has
    been created.  Otherwise the destination holds what the last attempt
    that opened it had received before it failed: an attempt that opens
    the file replaces what an earlier one left, but nothing removes the
    remains of the last one.  No other file is touched. *)
Theorem download_image_exhausted (env : Env) (url path : string) (retries : Z)
    (s : State) :
  (forall k, 0 <= k < retries -> attempt_ok env url path k = false) ->
  out (download_image env url path retries s) = Normal false /\
  ((forall k, 0 <= k < retries -> attempt_response env url path k = None) ->
   files (st (download_image env url path retries s)) = files s) /\
  (forall k0 resp,
     0 <= k0 < retries ->
     attempt_response env url path k0 = Some resp ->
     (forall k, k0 < k < retries -> attempt_response env url path k = None) ->
     files (st (download_image env url path retries s))
       = <[path := concat (resp_chunks resp)]> (files s)) /\
  (forall p, p <> path ->
     files (st (download_image env url path retries s)) !! p = files s !! p).
Proof.
  intros Hfail. split; [|split; [|split]].
  - rewrite download_image_run. cbn [out].
    apply loop_all_fail. intros k Hk. apply Hfail, py_range_in, Hk.
  - intros Hnone. rewrite download_image_files, last_body_never_opened; [reflexivity|].
    intros k Hk. apply Hnone, py_range_in, Hk.
  - intros k0 resp Hk0 Hresp Hlater. rewrite download_image_files.
    destruct (py_range_split retries k0 Hk0) as (l2 & Hsplit & Hl2).
    rewrite Hsplit, (last_body_last_opened env url path _ l2 k0 resp); try assumption.
    + reflexivity.
    + intros k Hk. apply Hfail, py_range_in. rewrite Hsplit. exact Hk.
    + intros k Hk. apply Hlater, Hl2, Hk.
  - intros p Hp. apply download_image_files_other, Hp.
Qed.

Lemma cut_stream_all_fail (url path : string) (k : Z) :
  attempt_ok Scenario.env_cut_stream url path k = false.
Proof.
  unfold attempt_ok, attempt_response. cbn. destruct (k =? 0); reflexivity.
Qed.

Lemma download_image_exhausted_witness :
  out (download_image Scenario.env_cut_stream "https://mangapark.io/1.jpg"
         "/dl/ch/page_001.jpg" 3 (Scenario.idle "/dl")) = Normal false /\
  files (st (download_image Scenario.env_cut_stream "https://mangapark.io/1.jpg"
               "/dl/ch/page_001.jpg" 3 (Scenario.idle "/dl")))
    = <["/dl/ch/page_001.jpg" := [Byte.x89; Byte.x50; Byte.x4e]]> ∅.
Proof.
  destruct (download_image_exhausted Scenario.env_cut_stream "https://mangapark.io/1.jpg"
              "/dl/ch/page_001.jpg" 3 (Scenario.idle "/dl"))
    as (Ho & _ & Hlast & _).
  - intros k _. apply cut_stream_all_fail.
  - split; [exact Ho|].
    apply (Hlast 0 Scenario.cut_response).
    + lia.
    + reflexivity.
    + intros k Hk. unfold attempt_response. cbn.
      destruct (k =? 0) eqn:E; [apply Z.eqb_eq in E; lia | reflexivity].
Defined.

(** The connection breaks while the first body is read and the two later
    requests fail: the three bytes that had arrived are still in the
    destination, which did not exist before, so that
    [spec_no_partial_file] does not hold there. *)
Lemma exhausted_leaves_partial_file :
  ~ spec_no_partial_file Scenario.env_cut_stream "https://mangapark.io/1.jpg"
      "/dl/ch/page_001.jpg" 3 (Scenario.idle "/dl").
Proof.
  intros H. destruct H as (_ & H).
  - intros k _. apply cut_stream_all_fail.
  - reflexivity.
  - vm_compute in H. discriminate H.
Qed.

(** C3: the code does not do what the claim asks for.  [download_image]
    with three attempts, the destination absent beforehand: the first
    request is answered, three bytes of the body are written and the
    connection breaks; the two later requests fail.  The call returns
    [False], as claimed, but nothing discards what the first attempt
    wrote: the destination now exists and holds the three bytes.  The
    page loop of [download_chapter] inherits this. *)
Theorem cut_stream_on_disk :
  let s := Scenario.idle "/dl" in
  let r := download_image Scenario.env_cut_stream "https://mangapark.io/1.jpg"
             "/dl/ch/page_001.jpg" 3 s in
  map (attempt_ok Scenario.env_cut_stream "https://mangapark.io/1.jpg"
         "/dl/ch/page_001.jpg") (py_range 3) = [false; false; false] /\
  files s !! "/dl/ch/page_001.jpg" = None /\
  out r = Normal false /\
  files (st r) !! "/dl/ch/page_001.jpg" = Some [Byte.x89; Byte.x50; Byte.x4e] /\
  count_requests (schedule (evs r)) = 3%nat.
Proof.
  vm_compute. repeat split.
Qed.

(** The result of a chapter and the pages it leaves.  With a session, a
    chapter directory and a non-empty list of URLs, the result of [download_chapter] is [True]
    exactly when at least one page was downloaded.  Every downloaded page
    is on disk in full.  A page whose attempts all failed before the
    destination was opened leaves the file system as it was at its path,
    so that when two of five images fail in this way three files are
    produced; the theorem says nothing of a failed page whose destination
    had been opened.  Files that are not pages of the chapter are not
    touched. *)
Theorem download_chapter_partial_success (env : Env) (url : string)
    (name : option string) (s : State) (d : Driver) (urls : list string) :
  out (create_driver env s) = Normal d ->
  env_makedirs env (chapter_dir_of env s name) = Normal tt ->
  out (get_chapter_images url (set_driver (Some d) s)) = Normal urls ->
  urls <> [] ->
  out (download_chapter env url name s)
    = Normal (0 <? pages_ok env (chapter_dir_of env s name) urls 1)%nat /\
  (forall j u,
     urls !! j = Some u ->
     image_ok env u (page_path (chapter_dir_of env s name) (S j)) 3 = true ->
     exists k resp,
       0 <= k < 3 /\
       attempt_response env u (page_path (chapter_dir_of env s name) (S j)) k
         = Some resp /\
       resp_stream_error resp = None /\
       files (st (download_chapter env url name s))
         !! page_path (chapter_dir_of env s name) (S j)
       = Some (concat (resp_chunks resp))) /\
  (forall j u,
     urls !! j = Some u ->
     (forall k, 0 <= k < 3 ->
        attempt_response env u (page_path (chapter_dir_of env s name) (S j)) k = None) ->
     files (st (download_chapter env url name s))
       !! page_path (chapter_dir_of env s name) (S j)
     = files s !! page_path (chapter_dir_of env s name) (S j)) /\
  (forall p, (forall j, (j < length urls)%nat ->
                p <> page_path (chapter_dir_of env s name) (S j)) ->
     files (st (download_chapter env url name s)) !! p = files s !! p).
Proof.
  intros Hc Hmk Hg Hne.
  destruct (download_chapter_pages env url name s d urls Hc Hmk Hg Hne)
    as (Ho & Hpage & Hother).
  split; [exact Ho|]. split; [|split; [|exact Hother]].
  - intros j u Hj Hok. rewrite (Hpage j u Hj).
    destruct (last_body_ok env u _ (py_range 3) None Hok)
      as (k & resp & Hin & Hr & He & ->).
    exists k, resp. split; [apply py_range_in, Hin|].
    split; [exact Hr|]. split; [exact He | reflexivity].
  - intros j u Hj Hnone. rewrite (Hpage j u Hj), last_body_never_opened; [reflexivity|].
    intros k Hk. apply Hnone, py_range_in, Hk.
Qed.

Lemma download_chapter_partial_success_witness :
  out (download_chapter Scenario.env_two_refused Scenario.chapter_url (Some "ch1")
         (Scenario.idle "/dl")) = Normal true /\
  size (new_files (Scenario.idle "/dl")
          (st (download_chapter Scenario.env_two_refused Scenario.chapter_url (Some "ch1")
                 (Scenario.idle "/dl")))) = 3%nat.
Proof.
  destruct (download_chapter_partial_success Scenario.env_two_refused Scenario.chapter_url
              (Some "ch1") (Scenario.idle "/dl") Scenario.five_pages Scenario.five_urls)
    as (Ho & _).
  - reflexivity.
  - reflexivity.
  - reflexivity.
  - discriminate.
  - split; [rewrite Ho; reflexivity | vm_compute; reflexivity].
Defined.

(** Two of five images fail for good because the connection breaks while
    their body is read: three pages are downloaded and the result is
    [True], but five files have been produced, two of them cut short, so
    that [spec_two_of_five] does not hold there. *)
Lemma two_cut_five_files :
  ~ spec_two_of_five Scenario.env_two_cut Scenario.chapter_url (Some "ch1")
      (Scenario.idle "/dl").
Proof.
  intros H.
  destruct (H Scenario.five_pages Scenario.five_urls) as (_ & Hsize);
    try reflexivity.
  vm_compute in Hsize. discriminate Hsize.
Qed.

(** C5: the code does not do what the claim asks for.  A chapter of five
    pages; the images of pages 2 and 4 fail for good, the connection
    breaking in each of their three attempts after three bytes.  The
    result is [True] and three pages are downloaded, as claimed, but five
    files have been produced, not three: [page_002.jpg] and
    [page_004.jpg] exist and hold the three bytes of a cut body: nothing
    in [download_image] discards what a failed attempt wrote. *)
Example two_cut_on_disk :
  let r := download_chapter Scenario.env_two_cut Scenario.chapter_url (Some "ch1")
             (Scenario.idle "/dl") in
  out r = Normal true /\
  pages_ok Scenario.env_two_cut "/dl/ch1" Scenario.five_urls 1 = 3%nat /\
  size (new_files (Scenario.idle "/dl") (st r)) = 5%nat /\
  files (st r) !! "/dl/ch1/page_001.jpg"
    = Some [Byte.x89; Byte.x50; Byte.x4e; Byte.x47] /\
  files (st r) !! "/dl/ch1/page_002.jpg" = Some [Byte.x89; Byte.x50; Byte.x4e] /\
  files (st r) !! "/dl/ch1/page_004.jpg" = Some [Byte.x89; Byte.x50; Byte.x4e].
Proof. vm_compute. repeat split. Qed.

(** * Further properties of the code *)

(** ** [download_image]: a download that gets through *)

Lemma total_pause_app (a b : list tick) :
  total_pause (a ++ b) = total_pause a + total_pause b.
Proof.
  induction a as [|t a IH]; [reflexivity|].
  destruct t; cbn [app total_pause]; rewrite IH; lia.
Qed.

(** While the last attempt is still ahead, every failed attempt is
    followed by its pause: [n] failures from attempt [a] on cost
    [2 ^ (a + n) - 2 ^ a] seconds. *)
Lemma backoff_total_pause (retries : Z) (n a : nat) :
  Z.of_nat (a + n) <= retries - 1 ->
  total_pause (backoff_schedule retries (map Z.of_nat (seq a n)))
    = 2 ^ Z.of_nat (a + n) - 2 ^ Z.of_nat a
  /\ count_requests (backoff_schedule retries (map Z.of_nat (seq a n))) = n.
Proof.
  revert a. induction n as [|n IH]; intros a Hr.
  - rewrite Nat.add_0_r. cbn. split; [lia | reflexivity].
  - unfold backoff_schedule in *. cbn [seq map flat_map]. unfold backoff_step at 1 3.
    rewrite (proj2 (Z.ltb_lt _ _)) by lia.
    destruct (IH (S a)) as (Ht & Hc); [lia|].
    cbn [app total_pause count_requests]. rewrite Ht, Hc. split; [|reflexivity].
    replace (Z.of_nat (S a + n)) with (Z.of_nat (a + S n)) by lia.
    replace (Z.of_nat (S a)) with (Z.succ (Z.of_nat a)) by lia.
    rewrite Z.pow_succ_r by lia. lia.
Qed.

Section FirstSuccess.

Variable env : Env.
Variables url path : string.
Variable retries : Z.

Lemma loop_first_success (l1 l2 : list Z) (k0 : Z) (s : State) :
  (forall k, In k l1 -> attempt_ok env url path k = false) ->
  attempt_ok env url path k0 = true ->
  out (download_image_loop env url path retries (l1 ++ k0 :: l2) s) = Normal true /\
  schedule (evs (download_image_loop env url path retries (l1 ++ k0 :: l2) s))
    = (backoff_schedule retries l1 ++ [Req])%list.
Proof.
  revert s. induction l1 as [|a l1 IH]; intros s Hfail Hok.
  - destruct (attempt_once_spec env url path retries k0 s) as (Ho & _ & _ & _ & He).
    cbn [app download_image_loop]. rewrite (bind_normal _ _ _ _ Ho).
    rewrite Hok in *. cbn [out evs]. rewrite app_nil_r, He. split; reflexivity.
  - destruct (attempt_once_spec env url path retries a s) as (Ho & _ & _ & _ & He).
    cbn [app download_image_loop]. rewrite (bind_normal _ _ _ _ Ho).
    rewrite (Hfail a (or_introl eq_refl)) in *.
    destruct (IH (st (attempt_once env url path retries a s))) as (Ho' & He');
      [intros k Hk; apply Hfail; right; exact Hk | exact Hok |].
    cbn [out evs]. rewrite schedule_app, He, Ho', He'. split; [reflexivity|].
    unfold backoff_schedule. cbn [flat_map]. unfold backoff_step at 2.
    rewrite <- app_assoc. destruct (a <? retries - 1); reflexivity.
Qed.

Lemma last_body_first_ok (l1 l2 : list Z) (k0 : Z) (cur : option Response) :
  (forall k, In k l1 -> attempt_ok env url path k = false) ->
  attempt_ok env url path k0 = true ->
  last_body env url path (l1 ++ k0 :: l2) cur = attempt_response env url path k0.
Proof.
  revert cur. induction l1 as [|a l1 IH]; intros cur Hfail Hok.
  - cbn [app last_body]. rewrite Hok. reflexivity.
  - cbn [app last_body]. rewrite (Hfail a (or_introl eq_refl)).
    apply IH; [|exact Hok]. intros k Hk. apply Hfail. right. exact Hk.
Qed.

End FirstSuccess.

(** X1.  When attempt [k0] is the first one to get through,
    [download_image] returns [True] after [k0 + 1] requests and
    [2 ^ k0 - 1] seconds of pauses, makes no further request, and the
    destination holds exactly the body of that response, whatever earlier
    attempts had left there. *)
Theorem download_image_first_success (env : Env) (url path : string) (retries : Z)
    (s : State) (k0 : Z) (resp : Response) :
  0 <= k0 < retries ->
  (forall k, 0 <= k < k0 -> attempt_ok env url path k = false) ->
  attempt_response env url path k0 = Some resp ->
  resp_stream_error resp = None ->
  out (download_image env url path retries s) = Normal true /\
  files (st (download_image env url path retries s))
    = <[path := concat (resp_chunks resp)]> (files s) /\
  count_requests (schedule (evs (download_image env url path retries s)))
    = S (Z.to_nat k0) /\
  total_pause (schedule (evs (download_image env url path retries s))) = 2 ^ k0 - 1.
Proof.
  intros Hk0 Hfail Hresp Hend.
  assert (Hok : attempt_ok env url path k0 = true)
    by (unfold attempt_ok; rewrite Hresp, Hend; reflexivity).
  destruct (py_range_split retries k0 Hk0) as (l2 & Hsplit & _).
  assert (Hpre : forall k, In k (py_range k0) -> attempt_ok env url path k = false)
    by (intros k Hk; apply Hfail, py_range_in, Hk).
  rewrite download_image_files, download_image_run. cbn [out evs schedule].
  rewrite Hsplit.
  destruct (loop_first_success env url path retries (py_range k0) l2 k0 s Hpre Hok)
    as (Ho & He).
  rewrite Ho, He, (last_body_first_ok env url path _ l2 k0 None Hpre Hok), Hresp.
  rewrite count_requests_app, total_pause_app. unfold py_range.
  destruct (backoff_total_pause retries (Z.to_nat k0) 0) as (Ht & Hc); [lia|].
  rewrite Ht, Hc. cbn [count_requests total_pause Nat.add].
  repeat split; [lia|]. rewrite Z2Nat.id by lia. cbn. lia.
Qed.

Lemma download_image_first_success_witness :
  out (download_image Cases.env_second_try "u" "/dl/p" 3 (Scenario.idle "/dl"))
    = Normal true /\
  files (st (download_image Cases.env_second_try "u" "/dl/p" 3 (Scenario.idle "/dl")))
    = <["/dl/p" := concat (resp_chunks Scenario.whole_response)]>
        (files (Scenario.idle "/dl")) /\
  count_requests (schedule (evs (download_image Cases.env_second_try "u" "/dl/p" 3
                                   (Scenario.idle "/dl")))) = 2%nat /\
  total_pause (schedule (evs (download_image Cases.env_second_try "u" "/dl/p" 3
                                (Scenario.idle "/dl")))) = 2 ^ 1 - 1.
Proof.
  apply (download_image_first_success Cases.env_second_try "u" "/dl/p" 3
           (Scenario.idle "/dl") 1 Scenario.whole_response).
  - lia.
  - intros k Hk. assert (k = 0) as -> by lia. reflexivity.
  - reflexivity.
  - reflexivity.
Defined.

(** X2.  When every attempt fails and there is at least one, the pauses
    of [download_image] add up to [2 ^ (retries - 1) - 1] seconds: 3
    seconds for the default of three attempts. *)
Theorem download_image_worst_case_pause (env : Env) (url path : string) (retries : Z)
    (s : State) :
  1 <= retries ->
  (forall k, 0 <= k < retries -> attempt_ok env url path k = false) ->
  total_pause (schedule (evs (download_image env url path retries s)))
    = 2 ^ (retries - 1) - 1.
Proof.
  intros Hr Hfail. rewrite download_image_run. cbn [evs schedule].
  destruct (loop_all_fail env url path retries (py_range retries) s) as (_ & He).
  { intros k Hk. apply Hfail, py_range_in, Hk. }
  rewrite He. unfold py_range.
  replace (Z.to_nat retries) with (S (Z.to_nat (retries - 1))) by lia.
  rewrite seq_S, map_app. unfold backoff_schedule. rewrite flat_map_app.
  fold (backoff_schedule retries (map Z.of_nat (seq 0 (Z.to_nat (retries - 1))))).
  rewrite total_pause_app.
  destruct (backoff_total_pause retries (Z.to_nat (retries - 1)) 0) as (Ht & _); [lia|].
  rewrite Ht. cbn [map flat_map Nat.add]. unfold backoff_step.
  rewrite (proj2 (Z.ltb_ge _ _)) by lia. cbn [app total_pause].
  rewrite Z2Nat.id by lia. cbn. lia.
Qed.

Lemma download_image_worst_case_pause_witness :
  total_pause (schedule (evs (download_image Scenario.env_offline "u" "/dl/p" 3
                                (Scenario.idle "/dl")))) = 2 ^ (3 - 1) - 1.
Proof.
  apply (download_image_worst_case_pause Scenario.env_offline "u" "/dl/p" 3
           (Scenario.idle "/dl")).
  - lia.
  - intros k _. reflexivity.
Defined.


(** ** [get_chapter_images]: which selector is used, and what comes out *)

(** The loop over the elements only asks for attributes: it records
    nothing and hands the state back. *)
Lemma collect_urls_state (d : Driver) (els : list Element) (acc : list string)
    (s s' : State) :
  collect_urls d els acc s = mkRes (out (collect_urls d els acc s')) s [].
Proof.
  revert acc. induction els as [|img rest IH]; intros acc; [reflexivity|].
  cbn [collect_urls]. unfold bind, lift.
  destruct (element_src d img) as [[u|]|e]; [| |reflexivity].
  - destruct (truthy (Some u) && contains "mangapark" u).
    + rewrite (IH (acc ++ [u])%list).
      destruct (collect_urls d rest (acc ++ [u]) s'); reflexivity.
    + rewrite (IH acc). destruct (collect_urls d rest acc s'); reflexivity.
  - rewrite (IH acc). destruct (collect_urls d rest acc s'); reflexivity.
Qed.

Lemma scrape_collects (d : Driver) (els : list Element) (urls : list string)
    (s : State) :
  Forall2 (fun img u => element_src d img = Normal (Some u)) els urls ->
  collect_urls d els [] s
    = mkRes (Normal (List.filter (contains "mangapark") urls)) s [].
Proof.
  intros H. rewrite (collect_urls_state d els [] s s).
  rewrite (collect_urls_kept d els urls [] s H). reflexivity.
Qed.

(** X4.  When the primary selector matches something, the other two
    selectors are not tried, and the result is what the filter keeps of
    the matched elements, in order. *)
Theorem get_chapter_images_primary_wins (url : string) (s : State) (d : Driver)
    (els : list Element) (urls : list string) :
  driver (self s) = Some d ->
  drv_get d url = Normal tt ->
  drv_wait_img d (timeout (self s)) = Normal tt ->
  drv_find_elements d sel_primary = Normal els ->
  els <> [] ->
  Forall2 (fun img u => element_src d img = Normal (Some u)) els urls ->
  out (get_chapter_images url s) = Normal (List.filter (contains "mangapark") urls) /\
  queries (evs (get_chapter_images url s)) = [sel_primary].
Proof.
  intros Hd Hg Hw Hp Hne Hsrc.
  unfold get_chapter_images, try_except, get_chapter_images_body, find_elements,
    bind, log, sleep, emit, get_state, lift, ret, raise.
  rewrite Hd, Hg, Hw, Hp.
  destruct els as [|img rest]; [congruence|]. cbn [is_empty].
  rewrite (scrape_collects d (img :: rest) urls s Hsrc). split; reflexivity.
Qed.

Lemma get_chapter_images_primary_wins_witness :
  out (get_chapter_images Scenario.chapter_url
         (Scenario.browsing "/dl" Scenario.five_pages)) = Normal Scenario.five_urls /\
  queries (evs (get_chapter_images Scenario.chapter_url
                  (Scenario.browsing "/dl" Scenario.five_pages))) = [sel_primary].
Proof.
  apply (get_chapter_images_primary_wins Scenario.chapter_url
           (Scenario.browsing "/dl" Scenario.five_pages) Scenario.five_pages
           [0; 1; 2; 3; 4]%nat Scenario.five_urls); try reflexivity.
  - discriminate.
  - repeat constructor.
Defined.

(** X5.  When the first two selectors match nothing, the elements with a
    [data-src] attribute are taken; all three selectors have then been
    tried, in their order of priority, and the same filter applies.  With
    no such element either the result is empty. *)
Theorem get_chapter_images_last_resort (url : string) (s : State) (d : Driver)
    (els : list Element) (urls : list string) :
  driver (self s) = Some d ->
  drv_get d url = Normal tt ->
  drv_wait_img d (timeout (self s)) = Normal tt ->
  drv_find_elements d sel_primary = Normal [] ->
  drv_find_elements d sel_reader = Normal [] ->
  drv_find_elements d sel_data_src = Normal els ->
  Forall2 (fun img u => element_src d img = Normal (Some u)) els urls ->
  out (get_chapter_images url s) = Normal (List.filter (contains "mangapark") urls) /\
  queries (evs (get_chapter_images url s)) = [sel_primary; sel_reader; sel_data_src].
Proof.
  intros Hd Hg Hw Hp Hr Hl Hsrc.
  unfold get_chapter_images, try_except, get_chapter_images_body, find_elements,
    bind, log, sleep, emit, get_state, lift, ret, raise.
  rewrite Hd, Hg, Hw, Hp. cbn [is_empty]. rewrite Hr. cbn [is_empty]. rewrite Hl.
  rewrite (scrape_collects d els urls s Hsrc). split; reflexivity.
Qed.

Lemma get_chapter_images_last_resort_witness :
  out (get_chapter_images Scenario.chapter_url
         (Scenario.browsing "/dl" Cases.deferred_page))
    = Normal (map Scenario.site_src [0; 1; 2]%nat) /\
  queries (evs (get_chapter_images Scenario.chapter_url
                  (Scenario.browsing "/dl" Cases.deferred_page)))
    = [sel_primary; sel_reader; sel_data_src].
Proof.
  apply (get_chapter_images_last_resort Scenario.chapter_url
           (Scenario.browsing "/dl" Cases.deferred_page) Cases.deferred_page
           [0; 1; 2]%nat (map Scenario.site_src [0; 1; 2]%nat)); try reflexivity.
  repeat constructor.
Defined.

Lemma bind_out_normal {A B} (m : M A) (f : A -> M B) (s : State) (b : B) :
  out (bind m f s) = Normal b ->
  exists a, out (m s) = Normal a /\ out (f a (st (m s))) = Normal b.
Proof.
  unfold bind. destruct (m s) as [[a|e] s1 e1]; [|discriminate].
  cbn [out st]. destruct (f a s1) as [o s2 e2] eqn:Hf. cbn [out]. intros ->.
  exists a. rewrite Hf. split; reflexivity.
Qed.


(** What the [try] block returns, it has got from the loop over the
    elements of some selector. *)
Lemma body_result_collected (url : string) (s : State) (l : list string) :
  out (get_chapter_images_body url s) = Normal l ->
  exists d els s', driver (self s) = Some d /\
                   out (collect_urls d els [] s') = Normal l.
Proof.
  intros H. unfold get_chapter_images_body in H.
  apply bind_out_normal in H as (_ & _ & H).
  apply bind_out_normal in H as (s0 & Hs0 & H). injection Hs0 as <-.
  apply bind_out_normal in H as (d & Hd & H).
  apply bind_out_normal in H as (_ & _ & H).
  apply bind_out_normal in H as (_ & _ & H).
  apply bind_out_normal in H as (_ & _ & H).
  apply bind_out_normal in H as (_ & _ & H).
  apply bind_out_normal in H as (els1 & _ & H).
  apply bind_out_normal in H as (els2 & _ & H).
  apply bind_out_normal in H as (els3 & _ & H).
  apply bind_out_normal in H as (urls & Hc & H).
  apply bind_out_normal in H as (_ & _ & H).
  injection H as <-.
  exists d, els3. eexists. split; [|exact Hc].
  cbn [log emit st] in Hd. destruct (driver (self s)) as [d0|]; [|discriminate].
  injection Hd as ->. reflexivity.
Qed.

Lemma scraper_result (url : string) (s : State) (l : list string) :
  out (get_chapter_images url s) = Normal l ->
  l = [] \/ out (get_chapter_images_body url s) = Normal l.
Proof.
  unfold get_chapter_images. rewrite emit_bind. cbn [out]. unfold try_except.
  destruct (get_chapter_images_body url s) as [[l0|e] s1 e1]; cbn [out].
  - intros [= <-]. right. reflexivity.
  - destruct e; cbn; intros [= <-]; left; reflexivity.
Qed.


(** An element whose [src] is set and does not contain the marker is
    dropped without a look at its [data-src]. *)
Lemma collect_urls_placeholders (d : Driver) (els : list Element) (acc : list string)
    (s : State) :
  (forall img, exists a,
     drv_get_attribute d img "src" = Normal (Some a) /\
     truthy (Some a) = true /\ contains "mangapark" a = false) ->
  out (collect_urls d els acc s) = Normal acc.
Proof.
  intros Hph. induction els as [|img rest IH]; [reflexivity|].
  cbn [collect_urls]. unfold bind, lift, element_src.
  destruct (Hph img) as (a & Ha & Ht & Hc). rewrite Ha, Ht. cbn beta iota.
  rewrite Ht, Hc. cbn [andb].
  destruct (collect_urls d rest acc s). exact IH.
Qed.

(** X7.  A placeholder in [src] hides [data-src]: on a page where every
    image has a non-empty [src] without the marker, [get_chapter_images]
    returns the empty list, whatever the selectors match and whatever the
    [data-src] attributes hold. *)
Theorem get_chapter_images_placeholder_src (url : string) (s : State) (d : Driver) :
  driver (self s) = Some d ->
  (forall img, exists a,
     drv_get_attribute d img "src" = Normal (Some a) /\
     truthy (Some a) = true /\ contains "mangapark" a = false) ->
  out (get_chapter_images url s) = Normal [].
Proof.
  intros Hd Hph.
  destruct (get_chapter_images_total url s) as (urls & Hu). rewrite Hu. f_equal.
  destruct (scraper_result url s urls Hu) as [-> | Hb]; [reflexivity|].
  destruct (body_result_collected url s urls Hb) as (d' & els & s' & Hd' & Hc).
  assert (d' = d) as -> by congruence.
  rewrite (collect_urls_placeholders d els [] s' Hph) in Hc. congruence.
Qed.

Lemma get_chapter_images_placeholder_src_witness :
  out (get_chapter_images Scenario.chapter_url (Scenario.browsing "/dl" Cases.lazy_page))
    = Normal [].
Proof.
  apply (get_chapter_images_placeholder_src Scenario.chapter_url
           (Scenario.browsing "/dl" Cases.lazy_page) Cases.lazy_page).
  - reflexivity.
  - intros img. exists "https://cdn.example.com/loading.gif". repeat split.
Defined.

(** ** Sessions that are not stored *)

(** X8.  [create_driver] hands the session to its caller and does not
    store it: when the object holds no session, a [quit_driver] right
    after a successful [create_driver] closes nothing.  It returns
    normally, leaves the state as it was and never calls
    [driver.quit()]. *)
Theorem quit_after_create_closes_nothing (env : Env) (s : State) (d : Driver) :
  driver (self s) = None ->
  out (create_driver env s) = Normal d ->
  st (create_driver env s) = s /\
  quit_driver (st (create_driver env s)) = mkRes (Normal tt) s [EvCall QuitDriver] /\
  milestones (evs (bind (create_driver env) (fun _ => quit_driver) s))
    = [AcquireCalled; Acquired; ReleaseCalled].
Proof.
  intros Hidle Hc.
  destruct (create_driver_spec env s) as (Hst & [(d' & _ & Hm) | (e & He & _)]);
    [|congruence].
  split; [exact Hst|]. split; [rewrite Hst; apply quit_driver_noop, Hidle|].
  rewrite (bind_normal _ _ _ _ Hc). cbn [evs].
  rewrite milestones_app, Hm, Hst, (quit_driver_noop s Hidle). reflexivity.
Qed.

Lemma quit_after_create_closes_nothing_witness :
  st (create_driver Scenario.env_online (Scenario.idle "/dl")) = Scenario.idle "/dl" /\
  quit_driver (st (create_driver Scenario.env_online (Scenario.idle "/dl")))
    = mkRes (Normal tt) (Scenario.idle "/dl") [EvCall QuitDriver] /\
  milestones (evs (bind (create_driver Scenario.env_online) (fun _ => quit_driver)
                     (Scenario.idle "/dl")))
    = [AcquireCalled; Acquired; ReleaseCalled].
Proof.
  apply (quit_after_create_closes_nothing Scenario.env_online (Scenario.idle "/dl")
           Scenario.five_pages); reflexivity.
Defined.

(** ** Requests *)

Lemma requestless_ret {A} (a : A) : requestless (ret a).
Proof. intros s. reflexivity. Qed.

Lemma requestless_raise {A} (e : exn) : requestless (@raise A e).
Proof. intros s. reflexivity. Qed.

Lemma requestless_lift {A} (o : outcome A) : requestless (lift o).
Proof. intros s. reflexivity. Qed.

Lemma requestless_modify (f : State -> State) : requestless (modify f).
Proof. intros s. reflexivity. Qed.

Lemma requestless_get_state : requestless get_state.
Proof. intros s. reflexivity. Qed.

Lemma requestless_emit (e : Event) :
  count_requests (schedule [e]) = O -> requestless (emit e).
Proof. intros He s. exact He. Qed.

Lemma requestless_bind {A B} (m : M A) (f : A -> M B) :
  requestless m -> (forall a, requestless (f a)) -> requestless (bind m f).
Proof.
  intros Hm Hf s. specialize (Hm s). unfold bind.
  destruct (m s) as [[a|e] s1 e1]; cbn [evs] in *; [|exact Hm].
  specialize (Hf a s1). destruct (f a s1) as [o s2 e2]; cbn [evs] in *.
  rewrite schedule_app, count_requests_app, Hm, Hf. reflexivity.
Qed.

Lemma requestless_try_except {A} (m : M A) (h : exn -> M A) :
  requestless m -> (forall e, requestless (h e)) -> requestless (try_except m h).
Proof.
  intros Hm Hh s. specialize (Hm s). unfold try_except.
  destruct (m s) as [[a|e] s1 e1]; cbn [evs] in *; [exact Hm|].
  specialize (Hh e s1). destruct (h e s1) as [o s2 e2]; cbn [evs] in *.
  rewrite schedule_app, count_requests_app, Hm, Hh. reflexivity.
Qed.

Lemma requestless_try_finally {A} (m : M A) (fin : M unit) :
  requestless m -> requestless fin -> requestless (try_finally m fin).
Proof.
  intros Hm Hf s. specialize (Hm s). unfold try_finally.
  destruct (m s) as [o s1 e1]; cbn [evs] in *.
  specialize (Hf s1). destruct (fin s1) as [[[]|e] s2 e2]; cbn [evs] in *;
    rewrite schedule_app, count_requests_app, Hm, Hf; reflexivity.
Qed.

Create HintDb requests discriminated.

#[local] Hint Resolve requestless_ret requestless_raise requestless_lift
  requestless_modify requestless_get_state : requests.
#[local] Hint Extern 1 (requestless (emit _)) =>
  (apply requestless_emit; reflexivity) : requests.
#[local] Hint Extern 1 (requestless (log _ _)) =>
  (apply requestless_emit; reflexivity) : requests.
#[local] Hint Extern 1 (requestless (sleep _)) =>
  (apply requestless_emit; reflexivity) : requests.

Ltac requestless_cases :=
  repeat (intros; match goal with
          | |- requestless (match ?x with _ => _ end) => destruct x
          | |- requestless (if ?x then _ else _) => destruct x
          | |- requestless (bind _ _) => apply requestless_bind
          | |- requestless (try_except _ _) => apply requestless_try_except
          | |- requestless (try_finally _ _) => apply requestless_try_finally
          end);
  intros; auto with requests.

Lemma collect_urls_requestless (d : Driver) (els : list Element) (acc : list string) :
  requestless (collect_urls d els acc).
Proof.
  revert acc. induction els as [|img rest IH]; intros acc; cbn [collect_urls];
    requestless_cases.
Qed.

#[local] Hint Resolve collect_urls_requestless : requests.

Lemma get_chapter_images_requestless (url : string) :
  requestless (get_chapter_images url).
Proof.
  unfold get_chapter_images, get_chapter_images_body, find_elements.
  requestless_cases.
Qed.

Lemma create_driver_requestless (env : Env) : requestless (create_driver env).
Proof. unfold create_driver. requestless_cases. Qed.

Lemma quit_driver_requestless : requestless quit_driver.
Proof. unfold quit_driver. requestless_cases. Qed.

Lemma makedirs_requestless (env : Env) (p : string) : requestless (makedirs env p).
Proof. unfold makedirs. requestless_cases. Qed.

Lemma resolve_chapter_name_requestless (env : Env) (name : option string) :
  requestless (resolve_chapter_name env name).
Proof. unfold resolve_chapter_name. requestless_cases. Qed.

(** Three attempts at most for each page. *)
Lemma download_pages_requests (env : Env) (chapter_dir : string) (urls : list string)
    (i c : nat) (s : State) :
  (count_requests (schedule (evs (download_pages env chapter_dir urls i c s)))
   <= 3 * length urls)%nat.
Proof.
  revert i c s. induction urls as [|u rest IH]; intros i c s; [cbn; lia|].
  cbn [download_pages]. fold (page_path chapter_dir i).
  destruct (download_image_out env u (page_path chapter_dir i) 3 s) as (Ho & _ & _).
  pose proof (download_image_requests_bounded env u (page_path chapter_dir i) 3 s) as Hb.
  rewrite (bind_normal _ _ _ _ Ho). unfold sleep. rewrite emit_bind. cbn [evs].
  rewrite schedule_app, count_requests_app. cbn [schedule count_requests length].
  specialize (IH (S i)
                (if image_ok env u (page_path chapter_dir i) 3 then S c else c)
                (st (download_image env u (page_path chapter_dir i) 3 s))).
  change (Z.to_nat 3) with 3%nat in Hb. lia.
Qed.

(** ** The whole run of a chapter download *)

(** The [try] block of [download_chapter], step by step, once a session
    has been handed out. *)
Lemma body_trace (env : Env) (url : string) (name : option string) (s : State)
    (d : Driver) :
  out (create_driver env s) = Normal d ->
  let dir := chapter_dir_of env s name in
  let nm := resolved_name env name in
  let s1 := set_driver (Some d) s in
  let s2 := add_dir dir s1 in
  let pre := (evs (create_driver env s) ++ (if truthy name then [] else [EvTime])
              ++ [EvMakedirs dir])%list in
  match env_makedirs env dir with
  | Raised e => download_chapter_body env url name s = mkRes (Raised e) s1 pre
  | Normal _ =>
      match out (get_chapter_images url s2) with
      | Normal [] =>
          download_chapter_body env url name s
            = mkRes (Normal false) s2
                (pre ++ [EvLog INFO (MsgStarting nm)] ++ evs (get_chapter_images url s2)
                 ++ [EvLog ERROR (MsgNoImages nm)])
      | Normal urls =>
          download_chapter_body env url name s
            = mkRes (Normal (0 <? pages_ok env dir urls 1)%nat)
                (st (download_pages env dir urls 1 0 s2))
                (pre ++ [EvLog INFO (MsgStarting nm)] ++ evs (get_chapter_images url s2)
                 ++ evs (download_pages env dir urls 1 0 s2)
                 ++ [EvLog INFO (MsgCompleted nm (pages_ok env dir urls 1) (length urls))])
      | Raised _ => False
      end
  end.
Proof.
  intros Hc dir nm s1 s2 pre. subst pre.
  destruct (create_driver_spec env s) as (Hst & _).
  unfold download_chapter_body, makedirs, bind, modify, get_state, log, emit, lift, ret.
  destruct (create_driver env s) as [o s0 e0]. cbn [out st evs] in Hc, Hst |- *.
  subst o s0. cbn beta iota. rewrite resolve_chapter_name_run. cbn beta iota.
  change (path_join (download_path (self (set_driver (Some d) s))) (resolved_name env name))
    with dir.
  fold nm.
  destruct (env_makedirs env dir) as [[]|e]; cbn beta iota.
  2:{ rewrite ?app_nil_r. reflexivity. }
  fold s1. fold s2.
  pose proof (get_chapter_images_readonly url s2) as Hro.
  destruct (get_chapter_images_total url s2) as (urls0 & Htot).
  destruct (get_chapter_images url s2) as [og sg eg]. cbn [out st evs] in Hro, Htot |- *.
  subst og sg. cbn beta iota.
  destruct urls0 as [|u0 rest0]; cbn [is_empty]; cbn beta iota.
  - cbn [app]. rewrite ?app_nil_r, <- ?app_assoc. reflexivity.
  - destruct (download_pages_spec env dir (u0 :: rest0) 1 0 s2) as (Ho & _).
    destruct (download_pages env dir (u0 :: rest0) 1 0 s2) as [op sp ep].
    cbn [out st evs] in Ho |- *. subst op. cbn beta iota. cbn [Nat.add].
    cbn [app]. rewrite ?app_nil_r, <- ?app_assoc. reflexivity.
Qed.

Lemma download_image_keeps_files (env : Env) (url path : string) (retries : Z)
    (s : State) :
  dom (files s) ⊆ dom (files (st (download_image env url path retries s))).
Proof.
  rewrite download_image_files.
  destruct (last_body env url path (py_range retries) None); [|reflexivity].
  rewrite dom_insert_L. apply union_subseteq_r.
Qed.

Lemma download_pages_keeps_files (env : Env) (chapter_dir : string)
    (urls : list string) (i c : nat) (s : State) :
  dom (files s) ⊆ dom (files (st (download_pages env chapter_dir urls i c s))).
Proof.
  revert i c s. induction urls as [|u rest IH]; intros i c s; [reflexivity|].
  cbn [download_pages]. fold (page_path chapter_dir i).
  destruct (download_image_out env u (page_path chapter_dir i) 3 s) as (Ho & _ & _).
  rewrite (bind_normal _ _ _ _ Ho). unfold sleep. rewrite emit_bind. cbn [st].
  etransitivity; [apply (download_image_keeps_files env u (page_path chapter_dir i) 3)|].
  apply IH.
Qed.


(** X10.  Whatever Chrome, the page, the servers and the file system
    answer, and whichever of their calls raise an exception,
    [download_chapter] returns a boolean, leaves the object without a
    session and with the configuration it had, removes no file, keeps
    every path [os.makedirs] had returned for, and ends with its
    five-second pause. *)
Theorem download_chapter_keeps (env : Env) (url : string) (name : option string)
    (s : State) :
  (exists b, out (download_chapter env url name s) = Normal b) /\
  driver (self (st (download_chapter env url name s))) = None /\
  download_path (self (st (download_chapter env url name s))) = download_path (self s) /\
  headless (self (st (download_chapter env url name s))) = headless (self s) /\
  timeout (self (st (download_chapter env url name s))) = timeout (self s) /\
  dirs s ⊆ dirs (st (download_chapter env url name s)) /\
  dom (files s) ⊆ dom (files (st (download_chapter env url name s))) /\
  (exists pre, evs (download_chapter env url name s) = (pre ++ [EvSleep 5])%list).
Proof.
  rewrite download_chapter_run. cbn zeta. cbn [out st evs].
  split; [destruct (out (download_chapter_body env url name s)); eauto|].
  split; [reflexivity|]. cbn [set_driver self download_path headless timeout dirs files].
  assert (Hst : self (st (download_chapter_body env url name s))
                  = self s \/
                exists d, self (st (download_chapter_body env url name s))
                          = self (set_driver (Some d) s)).
  { destruct (out (create_driver env s)) as [d|e] eqn:Hc.
    - right. exists d. apply (body_created env url name s d Hc).
    - left. rewrite (body_not_created env url name s e Hc). reflexivity. }
  assert (Hfs : dirs s ⊆ dirs (st (download_chapter_body env url name s)) /\
                dom (files s) ⊆ dom (files (st (download_chapter_body env url name s)))).
  { destruct (out (create_driver env s)) as [d|e] eqn:Hc.
    - destruct (body_created env url name s d Hc) as (_ & _ & Hb).
      destruct (env_makedirs env (chapter_dir_of env s name)) as [[]|e].
      + destruct Hb as (Hd & Hu).
        destruct (get_chapter_images_total url (set_driver (Some d) s)) as (urls & Hg).
        destruct (Hu urls Hg) as (_ & Hf). rewrite Hd, Hf.
        split; [apply union_subseteq_r|].
        apply (download_pages_keeps_files env _ urls 1 0
                 (add_dir (chapter_dir_of env s name) (set_driver (Some d) s))).
      + destruct Hb as (_ & Hf & Hd). rewrite Hf, Hd. split; reflexivity.
    - rewrite (body_not_created env url name s e Hc). split; reflexivity. }
  split; [destruct Hst as [-> | (d & ->)]; reflexivity|].
  split; [destruct Hst as [-> | (d & ->)]; reflexivity|].
  split; [destruct Hst as [-> | (d & ->)]; reflexivity|].
  split; [apply Hfs|]. split; [apply Hfs|].
  rewrite app_comm_cons, app_assoc. eexists. reflexivity.
Qed.

(** X11.  A chapter download makes at most three requests for each URL
    the scraper has returned, and none when there is no session or the
    scraper returns nothing. *)
Theorem download_chapter_requests_bounded (env : Env) (url : string)
    (name : option string) (s : State) :
  (count_requests (schedule (evs (download_chapter env url name s)))
   <= 3 * length (scraped env url s))%nat.
Proof.
  rewrite download_chapter_run. cbn zeta. cbn [evs schedule].
  rewrite !schedule_app, !count_requests_app.
  rewrite (quit_driver_requestless _). cbn [schedule count_requests].
  assert (Htail : count_requests
                    (schedule match out (download_chapter_body env url name s) with
                              | Normal _ => []
                              | Raised _ => [EvLog ERROR MsgChapterError]
                              end) = O)
    by (destruct (out (download_chapter_body env url name s)); reflexivity).
  rewrite Htail, !Nat.add_0_r. unfold scraped.
  destruct (out (create_driver env s)) as [d|e] eqn:Hc.
  - pose proof (body_trace env url name s d Hc) as Hb. cbv zeta in Hb.
    destruct (env_makedirs env (chapter_dir_of env s name)) as [[]|e].
    + rewrite <- (get_chapter_images_out_self url
                    (add_dir (chapter_dir_of env s name) (set_driver (Some d) s))
                    (set_driver (Some d) s) eq_refl).
      pose proof (get_chapter_images_requestless url
                    (add_dir (chapter_dir_of env s name) (set_driver (Some d) s))) as Hg.
      destruct (out (get_chapter_images url
                       (add_dir (chapter_dir_of env s name) (set_driver (Some d) s))))
        as [[|u0 rest0]|e']; [| |contradiction]; rewrite Hb; cbn [evs].
      * rewrite !schedule_app, !count_requests_app, Hg,
          (create_driver_requestless env s).
        destruct (truthy name); cbn; lia.
      * rewrite !schedule_app, !count_requests_app, Hg,
          (create_driver_requestless env s).
        pose proof (download_pages_requests env (chapter_dir_of env s name)
                      (u0 :: rest0) 1 0
                      (add_dir (chapter_dir_of env s name) (set_driver (Some d) s))) as Hp.
        destruct (truthy name); cbn [schedule count_requests app Nat.add] in *; lia.
    + rewrite Hb. cbn [evs]. rewrite !schedule_app, !count_requests_app,
        (create_driver_requestless env s).
      destruct (truthy name); cbn; lia.
  - rewrite (body_not_created env url name s e Hc). cbn [evs].
    rewrite (create_driver_requestless env s). lia.
Qed.


(** ** Chrome launches *)

Lemma mute_ret {A T} (proj : Event -> option T) (a : A) : mute proj (ret a).
Proof. intros s. reflexivity. Qed.

Lemma mute_raise {A T} (proj : Event -> option T) (e : exn) : mute proj (@raise A e).
Proof. intros s. reflexivity. Qed.

Lemma mute_lift {A T} (proj : Event -> option T) (o : outcome A) : mute proj (lift o).
Proof. intros s. reflexivity. Qed.

Lemma mute_modify {T} (proj : Event -> option T) (f : State -> State) :
  mute proj (modify f).
Proof. intros s. reflexivity. Qed.

Lemma mute_get_state {T} (proj : Event -> option T) : mute proj get_state.
Proof. intros s. reflexivity. Qed.

Lemma mute_emit {T} (proj : Event -> option T) (e : Event) :
  proj e = None -> mute proj (emit e).
Proof. intros He s. cbn. rewrite He. reflexivity. Qed.

Lemma mute_bind {A B T} (proj : Event -> option T) (m : M A) (f : A -> M B) :
  mute proj m -> (forall a, mute proj (f a)) -> mute proj (bind m f).
Proof.
  intros Hm Hf s. specialize (Hm s). unfold bind.
  destruct (m s) as [[a|e] s1 e1]; cbn [evs] in *; [|exact Hm].
  specialize (Hf a s1). destruct (f a s1) as [o s2 e2]; cbn [evs] in *.
  rewrite omap_app, Hm, Hf. reflexivity.
Qed.

Lemma mute_try_except {A T} (proj : Event -> option T) (m : M A) (h : exn -> M A) :
  mute proj m -> (forall e, mute proj (h e)) -> mute proj (try_except m h).
Proof.
  intros Hm Hh s. specialize (Hm s). unfold try_except.
  destruct (m s) as [[a|e] s1 e1]; cbn [evs] in *; [exact Hm|].
  specialize (Hh e s1). destruct (h e s1) as [o s2 e2]; cbn [evs] in *.
  rewrite omap_app, Hm, Hh. reflexivity.
Qed.

Lemma mute_try_finally {A T} (proj : Event -> option T) (m : M A) (fin : M unit) :
  mute proj m -> mute proj fin -> mute proj (try_finally m fin).
Proof.
  intros Hm Hf s. specialize (Hm s). unfold try_finally.
  destruct (m s) as [o s1 e1]; cbn [evs] in *.
  specialize (Hf s1). destruct (fin s1) as [[[]|e] s2 e2]; cbn [evs] in *;
    rewrite omap_app, Hm, Hf; reflexivity.
Qed.

Create HintDb muted discriminated.

#[local] Hint Resolve mute_ret mute_raise mute_lift mute_modify mute_get_state : muted.
#[local] Hint Extern 1 (mute _ (emit _)) => (apply mute_emit; reflexivity) : muted.
#[local] Hint Extern 1 (mute _ (log _ _)) => (apply mute_emit; reflexivity) : muted.
#[local] Hint Extern 1 (mute _ (sleep _)) => (apply mute_emit; reflexivity) : muted.

Ltac mute_cases :=
  repeat (intros; match goal with
          | |- mute _ (match ?x with _ => _ end) => destruct x
          | |- mute _ (if ?x then _ else _) => destruct x
          | |- mute _ (bind _ _) => apply mute_bind
          | |- mute _ (try_except _ _) => apply mute_try_except
          | |- mute _ (try_finally _ _) => apply mute_try_finally
          end);
  intros; auto with muted.

Lemma collect_urls_mute {T} (proj : Event -> option T) (d : Driver)
    (els : list Element) (acc : list string) :
  mute proj (collect_urls d els acc).
Proof.
  revert acc. induction els as [|img rest IH]; intros acc; cbn [collect_urls];
    mute_cases.
Qed.

#[local] Hint Resolve collect_urls_mute : muted.

Lemma get_chapter_images_no_launch (url : string) :
  mute launch_of (get_chapter_images url).
Proof. unfold get_chapter_images, get_chapter_images_body, find_elements. mute_cases. Qed.

Lemma write_chunks_mute {T} (proj : Event -> option T) (path : string)
    (chunks : list bytes) :
  (forall c, proj (EvWrite path c) = None) -> mute proj (write_chunks path chunks).
Proof.
  intros Hw. induction chunks as [|c rest IH]; cbn [write_chunks]; [auto with muted|].
  unfold f_write. mute_cases. apply mute_emit, Hw.
Qed.

Lemma download_image_no_launch (env : Env) (url path : string) (retries : Z) :
  mute launch_of (download_image env url path retries).
Proof.
  unfold download_image. apply mute_bind; [auto with muted|]. intros _.
  induction (py_range retries) as [|k rest IH]; cbn [download_image_loop];
    [mute_cases|].
  apply mute_bind; [|intros [|]; auto with muted].
  unfold attempt_once, attempt_body, open_wb. mute_cases.
  apply write_chunks_mute. reflexivity.
Qed.

Lemma download_pages_no_launch (env : Env) (chapter_dir : string) (urls : list string)
    (i c : nat) :
  mute launch_of (download_pages env chapter_dir urls i c).
Proof.
  revert i c. induction urls as [|u rest IH]; intros i c; cbn [download_pages];
    [auto with muted|].
  apply mute_bind; [apply download_image_no_launch|]. intros ok.
  apply mute_bind; [auto with muted|]. intros _. apply IH.
Qed.

Lemma quit_driver_no_launch : mute launch_of quit_driver.
Proof. unfold quit_driver. mute_cases. Qed.

Lemma launches_app (a b : list Event) :
  launches (a ++ b) = (launches a ++ launches b)%list.
Proof. apply omap_app. Qed.

(** [create_driver] starts Chrome once, with the options of the object's
    [headless] flag, whether or not that works. *)
Lemma create_driver_launches (env : Env) (s : State) :
  launches (evs (create_driver env s)) = [chrome_options (headless (self s))].
Proof.
  unfold create_driver, try_except, bind, log, emit, get_state, lift, ret, raise.
  destruct (env_chrome env (chrome_options (headless (self s)))) as [d|e]; cbn;
    [|reflexivity].
  destruct (drv_set_page_load_timeout d (timeout (self s))) as [[]|e]; cbn;
    [|reflexivity].
  destruct (drv_implicitly_wait d 10) as [[]|e]; reflexivity.
Qed.

Lemma launches_skip (e : Event) (tr : list Event) :
  launch_of e = None -> launches (e :: tr) = launches tr.
Proof. intros He. unfold launches. cbn. rewrite He. reflexivity. Qed.

Lemma chapter_launches (env : Env) (url : string) (name : option string) (s : State) :
  launches (evs (download_chapter env url name s))
    = [chrome_options (headless (self s))].
Proof.
  rewrite download_chapter_run. cbn zeta. cbn [evs].
  rewrite launches_skip by reflexivity. rewrite !launches_app.
  pose proof (quit_driver_no_launch (st (download_chapter_body env url name s))) as Hq.
  fold (launches (evs (quit_driver (st (download_chapter_body env url name s))))) in Hq.
  rewrite Hq.
  assert (Htail : launches match out (download_chapter_body env url name s) with
                           | Normal _ => []
                           | Raised _ => [EvLog ERROR MsgChapterError]
                           end = [])
    by (destruct (out (download_chapter_body env url name s)); reflexivity).
  rewrite Htail. cbn [app launches omap launch_of]. rewrite !app_nil_r.
  destruct (out (create_driver env s)) as [d|e] eqn:Hc.
  - pose proof (body_trace env url name s d Hc) as Hb. cbv zeta in Hb.
    destruct (env_makedirs env (chapter_dir_of env s name)) as [[]|e].
    + pose proof (get_chapter_images_no_launch url
                    (add_dir (chapter_dir_of env s name) (set_driver (Some d) s))) as Hg.
      fold (launches (evs (get_chapter_images url
              (add_dir (chapter_dir_of env s name) (set_driver (Some d) s))))) in Hg.
      destruct (out (get_chapter_images url
                       (add_dir (chapter_dir_of env s name) (set_driver (Some d) s))))
        as [[|u0 rest0]|e']; [| |contradiction]; rewrite Hb; cbn [evs].
      * rewrite !launches_app, Hg, create_driver_launches.
        destruct (truthy name); reflexivity.
      * pose proof (download_pages_no_launch env (chapter_dir_of env s name)
                      (u0 :: rest0) 1 0
                      (add_dir (chapter_dir_of env s name) (set_driver (Some d) s))) as Hp.
        fold (launches (evs (download_pages env (chapter_dir_of env s name)
                (u0 :: rest0) 1 0
                (add_dir (chapter_dir_of env s name) (set_driver (Some d) s))))) in Hp.
        rewrite !launches_app, Hg, Hp, create_driver_launches.
        destruct (truthy name); reflexivity.
    + rewrite Hb. cbn [evs]. rewrite !launches_app, create_driver_launches.
      destruct (truthy name); reflexivity.
  - rewrite (body_not_created env url name s e Hc). cbn [evs].
    apply create_driver_launches.
Qed.

(** X12.  Each call of [download_chapter] tries to start Chrome exactly
    once, whatever happens afterwards, with the options that go with the
    [headless] field of the object: ["--headless=new"] in front of the
    thirteen fixed flags when it is set, the thirteen flags alone when it
    is not. *)
Theorem download_chapter_launches_once (env : Env) (url : string)
    (name : option string) (s : State) :
  launches (evs (download_chapter env url name s))
    = [chrome_options (headless (self s))] /\
  chrome_options true = "--headless=new" :: chrome_options false /\
  length (chrome_options false) = 13%nat /\
  ~ In "--headless=new" (chrome_options false).
Proof.
  split; [apply chapter_launches|]. split; [reflexivity|]. split; [reflexivity|].
  cbn. intros H. repeat (destruct H as [H | H]; [discriminate H|]). exact H.
Qed.

(** ** The constructor *)

Lemma inner_app (a b : list action) : inner (a ++ b) = (inner a ++ inner b)%list.
Proof. apply omap_app. Qed.

Lemma inner_did (l : list Event) : inner (map Did l) = l.
Proof. induction l as [|e l IH]; [reflexivity|]. cbn. f_equal. exact IH. Qed.

Lemma open_append_lookup (path : string) (fs : gmap string bytes) :
  open_append path fs !! path = Some (default [] (fs !! path)) /\
  (forall p, p <> path -> open_append path fs !! p = fs !! p).
Proof.
  unfold open_append. destruct (fs !! path) as [old|] eqn:E.
  - split; [rewrite E; reflexivity | reflexivity].
  - split; [apply lookup_insert_eq | intros p Hp; apply lookup_insert_ne; congruence].
Qed.

Lemma append_line_lookup (path : string) (line : bytes) (fs : gmap string bytes) :
  append_line path line fs !! path = Some (default [] (fs !! path) ++ line)%list /\
  (forall p, p <> path -> append_line path line fs !! p = fs !! p).
Proof.
  unfold append_line. destruct (fs !! path) as [old|] eqn:E.
  - split; [apply lookup_insert_eq | intros p Hp; apply lookup_insert_ne; congruence].
  - split; [apply lookup_insert_eq | intros p Hp; apply lookup_insert_ne; congruence].
Qed.

(** What a successful construction leaves. *)
Lemma init_ok (lg : Logging) (env : Env)
    (dp : option string) (h : bool) (t : Z) (s : State) :
  r_out (init lg env dp h t s) = Normal tt ->
  r_st (init lg env dp h t s)
    = {| self := {| download_path := path_or_default dp; headless := h; timeout := t;
                    driver := None |};
         files := append_line (log_file_of (path_or_default dp))
                    (record_line lg ("Download path set to: " +:+ path_or_default dp))
                    (open_append (log_file_of (path_or_default dp)) (files s));
         dirs := {[path_or_default dp]} ∪ dirs s |} /\
  r_acts (init lg env dp h t s)
    = [LogFileOpened (log_file_of (path_or_default dp));
       Did (EvMakedirs (path_or_default dp));
       LogPathSet (path_or_default dp)].
Proof.
  unfold init, makedirs, bind, emit, lift, modify.
  destruct (open_log lg (log_file_of (path_or_default dp))) as [[]|e];
    [|discriminate].
  destruct (env_makedirs env (path_or_default dp)) as [[]|e]; cbn; [|discriminate].
  intros _. split; reflexivity.
Qed.

(** What a failed construction leaves: the fault is that of the step
    that failed.  When the log file could not be opened nothing else was
    tried; when the download directory could not be made the log file had
    been opened. *)
Lemma init_fault (lg : Logging) (env : Env)
    (dp : option string) (h : bool) (t : Z) (s : State) (e : exn) :
  r_out (init lg env dp h t s) = Raised e ->
  (open_log lg (log_file_of (path_or_default dp)) = Raised e /\
   files (r_st (init lg env dp h t s)) = files s /\
   inner (r_acts (init lg env dp h t s)) = [])
  \/
  (open_log lg (log_file_of (path_or_default dp)) = Normal tt /\
   env_makedirs env (path_or_default dp) = Raised e /\
   files (r_st (init lg env dp h t s))
     = open_append (log_file_of (path_or_default dp)) (files s) /\
   inner (r_acts (init lg env dp h t s)) = [EvMakedirs (path_or_default dp)]).
Proof.
  unfold init, makedirs, bind, emit, lift, modify.
  destruct (open_log lg (log_file_of (path_or_default dp))) as [[]|e0].
  - destruct (env_makedirs env (path_or_default dp)) as [[]|e1]; cbn; [discriminate|].
    intros [= ->]. right. repeat split.
  - cbn. intros [= ->]. left. repeat split.
Qed.

(** X13.  A downloader that has just been constructed holds no session
    and the configuration it was given; its download directory is the one
    given, or the default one when none or an empty one was given, and
    [os.makedirs] has returned for it.  The log file next to that
    directory holds what it held before, if it was there, followed by the
    record of the download path; no other file has changed.  The first
    [download_chapter] of that object enters [quit_driver] once and
    closes as many sessions as it acquires. *)
Theorem fresh_downloader_downloads (lg : Logging) (env : Env)
    (dp : option string) (h : bool) (t : Z) (s : State)
    (url : string) (name : option string) :
  r_out (init lg env dp h t s) = Normal tt ->
  self (r_st (init lg env dp h t s))
    = {| download_path := path_or_default dp; headless := h; timeout := t;
         driver := None |} /\
  path_or_default dp ∈ dirs (r_st (init lg env dp h t s)) /\
  files (r_st (init lg env dp h t s)) !! log_file_of (path_or_default dp)
    = Some (default [] (files s !! log_file_of (path_or_default dp))
            ++ record_line lg ("Download path set to: " +:+ path_or_default dp))%list /\
  (forall p, p <> log_file_of (path_or_default dp) ->
     files (r_st (init lg env dp h t s)) !! p = files s !! p) /\
  count_milestone is_release_called
    (evs (download_chapter env url name (r_st (init lg env dp h t s))))
    = 1%nat /\
  count_milestone is_session_closed
    (evs (download_chapter env url name (r_st (init lg env dp h t s))))
    = count_milestone is_acquired
        (evs (download_chapter env url name (r_st (init lg env dp h t s)))).
Proof.
  intros Hok. destruct (init_ok lg env dp h t s Hok) as (-> & _).
  cbn [self dirs files].
  destruct (append_line_lookup (log_file_of (path_or_default dp))
              (record_line lg ("Download path set to: " +:+ path_or_default dp))
              (open_append (log_file_of (path_or_default dp)) (files s)))
    as (Hlf & Hother).
  destruct (open_append_lookup (log_file_of (path_or_default dp)) (files s))
    as (Hlf0 & Hother0).
  split; [reflexivity|].
  split; [apply elem_of_union_l, elem_of_singleton; reflexivity|].
  split; [rewrite Hlf, Hlf0; reflexivity|].
  split; [intros p Hp; rewrite (Hother p Hp); apply Hother0, Hp|].
  unfold count_milestone. rewrite download_chapter_milestones. cbn [self driver].
  split; destruct (out (create_driver env _)); destruct (truthy name); reflexivity.
Qed.

Lemma fresh_downloader_downloads_witness :
  driver (self (r_st (init Cases.logging_ok Scenario.env_online None true 30
                        Cases.blank))) = None /\
  default_download_path
    ∈ dirs (r_st (init Cases.logging_ok Scenario.env_online None true 30 Cases.blank)) /\
  files (r_st (init Cases.logging_ok Scenario.env_online None true 30 Cases.blank))
    !! "/home/runner/work/slack-images/slack-images/mangapark_dl.log"
  = Some (record_line Cases.logging_ok
            ("Download path set to: " +:+ default_download_path)).
Proof.
  destruct (fresh_downloader_downloads Cases.logging_ok Scenario.env_online None
              true 30 Cases.blank Scenario.chapter_url None eq_refl)
    as (H1 & H2 & H3 & _).
  split; [rewrite H1; reflexivity|]. split; [exact H2 | exact H3].
Defined.

(** ** The command line *)

(** X14.  A fault of the constructor is not caught by [main]: it comes
    out as it is, Chrome has not been started and no request has been
    made.  Either the log file could not be opened, and then no file has
    changed and [os.makedirs] was not called; or the download directory
    could not be made, and then the log file has been opened, so that it
    exists (empty if it was not there before), and no other file has
    changed. *)
Theorem main_constructor_fault (lg : Logging) (env : Env)
    (a : Args) (s : State) (e : exn) :
  r_out (init lg env (arg_output a) (parsed_headless a) (parsed_timeout a) s)
    = Raised e ->
  r_out (main lg env a s) = Raised e /\
  launches (inner (r_acts (main lg env a s))) = [] /\
  count_requests (schedule (inner (r_acts (main lg env a s)))) = O /\
  (forall p, p <> log_file_of (path_or_default (arg_output a)) ->
     files (r_st (main lg env a s)) !! p = files s !! p) /\
  ((open_log lg (log_file_of (path_or_default (arg_output a))) = Raised e /\
    files (r_st (main lg env a s)) = files s /\
    inner (r_acts (main lg env a s)) = [])
   \/
   (env_makedirs env (path_or_default (arg_output a)) = Raised e /\
    files (r_st (main lg env a s)) !! log_file_of (path_or_default (arg_output a))
      = Some (default [] (files s !! log_file_of (path_or_default (arg_output a)))) /\
    inner (r_acts (main lg env a s)) = [EvMakedirs (path_or_default (arg_output a))])).
Proof.
  intros Hf. unfold main. rewrite Hf. cbn [r_out r_st r_acts].
  destruct (open_append_lookup (log_file_of (path_or_default (arg_output a))) (files s))
    as (Hlf & Hother).
  destruct (init_fault lg env _ _ _ s e Hf)
    as [(Ho & Hfi & Hin) | (_ & Hmk & Hfi & Hin)]; rewrite Hfi, Hin.
  - split; [reflexivity|]. split; [reflexivity|]. split; [reflexivity|].
    split; [reflexivity|]. left. repeat split. exact Ho.
  - split; [reflexivity|]. split; [reflexivity|]. split; [reflexivity|].
    split; [exact Hother|]. right. split; [exact Hmk|]. split; [exact Hlf | reflexivity].
Qed.

Lemma main_constructor_fault_witness :
  r_out (main Cases.logging_ok Cases.env_no_mkdir
           (Cases.args_of (Some "/dl") (Some "ch1") false) Cases.blank) = Raised OSError /\
  launches (inner (r_acts (main Cases.logging_ok Cases.env_no_mkdir
                             (Cases.args_of (Some "/dl") (Some "ch1") false)
                             Cases.blank))) = [] /\
  files (r_st (main Cases.logging_ok Cases.env_no_mkdir
                 (Cases.args_of (Some "/dl") (Some "ch1") false) Cases.blank))
    !! "/mangapark_dl.log" = Some [].
Proof.
  destruct (main_constructor_fault Cases.logging_ok Cases.env_no_mkdir
              (Cases.args_of (Some "/dl") (Some "ch1") false) Cases.blank OSError eq_refl)
    as (Ho & Hl & _ & _ & [(Hopen & _) | (_ & Hlf & _)]).
  - discriminate Hopen.
  - split; [exact Ho|]. split; [exact Hl | exact Hlf].
Defined.

(** When it is the log file that cannot be opened, nothing is left. *)
Example log_file_refused :
  let r := main Cases.logging_refused Scenario.env_online
             (Cases.args_of None (Some "ch1") false) Cases.blank in
  r_out r = Raised OSError /\ files (r_st r) = ∅ /\ dirs (r_st r) = ∅ /\
  r_acts r = [LogFileOpened "/home/runner/work/slack-images/slack-images/mangapark_dl.log"].
Proof. vm_compute. repeat split. Qed.

(** X16.  From the command line Chrome is always started headless: the
    flag [--headless] is a [store_true] whose default is already [True],
    so that, given or not, [main] makes one attempt to start Chrome and
    ["--headless=new"] is its first option. *)
Theorem main_always_headless (lg : Logging) (env : Env)
    (a : Args) (s : State) :
  r_out (init lg env (arg_output a) (parsed_headless a) (parsed_timeout a) s)
    = Normal tt ->
  launches (inner (r_acts (main lg env a s)))
    = ["--headless=new" :: chrome_options false].
Proof.
  intros Hok.
  assert (Hh : parsed_headless a = true)
    by (unfold parsed_headless, store_true; destruct (arg_headless_given a); reflexivity).
  destruct (init_ok lg env _ _ _ s Hok) as (Hst & Hacts).
  assert (Hl : launches (evs (download_chapter env (arg_url a) (arg_name a)
                 (r_st (init lg env (arg_output a) (parsed_headless a)
                          (parsed_timeout a) s))))
               = ["--headless=new" :: chrome_options false]).
  { rewrite chapter_launches, Hst. cbn [self headless]. rewrite Hh. reflexivity. }
  unfold main. rewrite Hok.
  destruct (out (download_chapter env (arg_url a) (arg_name a) _)) as [[|]|e];
    cbn [r_acts]; rewrite !inner_app, inner_did, Hacts, !launches_app, Hl; reflexivity.
Qed.

Lemma main_always_headless_witness :
  launches (inner (r_acts (main Cases.logging_ok Scenario.env_online
                             (Cases.args_of None None false) Cases.blank)))
    = ["--headless=new" :: chrome_options false].
Proof.
  apply (main_always_headless Cases.logging_ok Scenario.env_online
           (Cases.args_of None None false) Cases.blank).
  reflexivity.
Defined.

(** ** Page numbers and file names *)

Lemma zeros_length (k : nat) : String.length (zeros k) = k.
Proof. induction k as [|k IH]; [reflexivity|]. cbn. rewrite IH. reflexivity. Qed.

(** X17.  The page number can be read back from its formatted form, which
    is at least three characters long; hence two pages of a chapter never
    share a file, and a page takes the place of no other. *)
Theorem page_number_round_trip (chapter_dir : string) (i j : nat) :
  read_decimal (fmt_03d i) = Some i /\
  (3 <= String.length (fmt_03d i))%nat /\
  (page_path chapter_dir i = page_path chapter_dir j <-> i = j).
Proof.
  split; [apply read_fmt_03d|]. split.
  - unfold fmt_03d. rewrite string_app_length, zeros_length. lia.
  - split; [apply page_path_inj | intros ->; reflexivity].
Qed.
